(** * eilos: the runtime context and its configuration-file registry

    A shallow embedding of [struct/RuntimeContext.ts] (the [RuntimeContext]
    class) and of the action handler of [entry-cli.ts], with the properties
    of the specification stated and proved over it, followed by further
    properties of the same code: the mode, [util.merge], sequences of calls
    on one context, and the registration of commands in [cli].

    JavaScript values are an inductive type; an object is the finite map of
    its own enumerable string-keyed properties, and reading a property that
    is not among them finds the member of [Object.prototype] of that name,
    as the lookups [this._args[name]], [this._dir[alias]],
    [this._config[name]] and [this._config_files[name]] of the class do.
    Methods that throw or mutate [this] are functions from a context to a
    new context and a [Result]. *)

From stdpp Require Import gmap strings list fin_maps pretty.
From Stdlib Require Import ZArith Lia.

Open Scope string_scope.
Open Scope list_scope.

(** ** JavaScript values *)

Module JS.

(** Numbers are the integer-valued ones; [VFun] is an opaque function
    (a generator of a configuration file, say), identified by a tag. *)
#[local] Unset Elimination Schemes.
Inductive value : Type :=
  | VUndefined
  | VNull
  | VBool (b : bool)
  | VNum (n : Z)
  | VStr (s : string)
  | VFun (tag : nat)
  | VArr (elems : list value)
  | VObj (props : gmap string value).
#[local] Set Elimination Schemes.

(** [!!v] *)
Definition truthy (v : value) : bool :=
  match v with
  | VUndefined | VNull => false
  | VBool b => b
  | VNum n => negb (n =? 0)%Z
  | VStr s => negb (String.eqb s "")
  | VFun _ | VArr _ | VObj _ => true
  end.

(** [v == null] *)
Definition nullish (v : value) : bool :=
  match v with
  | VUndefined | VNull => true
  | _ => false
  end.

(** [Array.isArray(v)] *)
Definition isArray (v : value) : bool :=
  match v with VArr _ => true | _ => false end.

(** [typeof v === "object"] *)
Definition typeof_object (v : value) : bool :=
  match v with
  | VNull | VArr _ | VObj _ => true
  | _ => false
  end.

(** [a || b] *)
Definition or_else (a b : value) : value := if truthy a then a else b.

(** The characters of a string, as one-character strings. *)
Fixpoint chars (s : string) : list value :=
  match s with
  | EmptyString => []
  | String c s' => VStr (String c EmptyString) :: chars s'
  end.

(** A list seen as the map from its decimal indices to its elements. *)
Definition indexed (l : list value) : gmap string value :=
  list_to_map (imap (λ i x, (pretty i, x)) l).

(** The own enumerable string-keyed properties of a value, as
    [Object.keys] and [Object.assign] see them. *)
Definition own_props (v : value) : gmap string value :=
  match v with
  | VObj m => m
  | VArr l => indexed l
  | VStr s => indexed (chars s)
  | _ => ∅
  end.

(** The names of the members of [Object.prototype], which every plain
    object inherits. *)
Definition Object_prototype_names : list string :=
  ["constructor"; "__defineGetter__"; "__defineSetter__"; "hasOwnProperty";
   "__lookupGetter__"; "__lookupSetter__"; "isPrototypeOf";
   "propertyIsEnumerable"; "toString"; "valueOf"; "__proto__";
   "toLocaleString"].

Definition inherited_name (k : string) : bool :=
  bool_decide (k ∈ Object_prototype_names).

Fixpoint index_of (k : string) (names : list string) : option nat :=
  match names with
  | [] => None
  | n :: rest => if String.eqb n k then Some 0 else S <$> index_of k rest
  end.

(** What a plain object inherits under [k]: a function for each name
    above, except that [__proto__] reads as [Object.prototype] itself, an
    object without enumerable properties. *)
Definition Object_prototype_member (k : string) : option value :=
  if String.eqb k "__proto__" then Some (VObj ∅)
  else VFun <$> index_of k Object_prototype_names.

(** The names found on a function: its own [length] and [name] and the
    members of [Function.prototype], besides those of
    [Object.prototype]. *)
Definition Function_member_names : list string :=
  ["length"; "name"; "prototype"; "apply"; "arguments"; "bind"; "call";
   "caller"].

(** A key that names no member of [Object.prototype] and none of a
    function. *)
Definition safe_key (k : string) : bool :=
  negb (inherited_name k) && negb (bool_decide (k ∈ Function_member_names)).

(** [m[k]] on a plain object with the own properties [m]: the own property
    or else the inherited one. *)
Definition member (m : gmap string value) (k : string) : value :=
  match m !! k with
  | Some v => v
  | None => default VUndefined (Object_prototype_member k)
  end.

(** [o[k]] on a plain object; the configuration, which is read this way,
    is always one. *)
Definition get_prop (o : value) (k : string) : value :=
  match o with
  | VObj m => member m k
  | _ => VUndefined
  end.

(** The own property [k] of [m], [undefined] when [m] has none:
    [Object.hasOwn(m, k) ? m[k] : undefined]. *)
Definition get (m : gmap string value) (k : string) : value :=
  default VUndefined (m !! k).

(** [Object.assign(target, source)]: every own enumerable property of
    [source] is written over [target]. *)
Definition assign (target : gmap string value) (source : value)
  : gmap string value :=
  own_props source ∪ target.

(** Following a path of keys through nested plain objects. *)
Fixpoint get_path (ks : list string) (v : value) : option value :=
  match ks with
  | [] => Some v
  | k :: ks' =>
      match v with
      | VObj m => m !! k ≫= get_path ks'
      | _ => None
      end
  end.

End JS.
Export JS.

(** ** The [deepmerge] package, as the context calls it

    [deepmerge] is a dependency of the repository (imported as [merge]), not
    one of its sources: the definitions below follow the algorithm of the
    package (version 4: [deepmerge], [mergeObject],
    [cloneUnlessOtherwiseSpecified], [defaultArrayMerge],
    [propertyIsOnObject], [propertyIsUnsafe]) on the values of this model:
    a plain object has its own enumerable properties and inherits the
    members of [Object.prototype]. *)

Module Deepmerge.

(** The [arrayMerge] option: a function of the destination and the source
    array. *)
Definition ArrayMerge := list value → list value → list value.

(** [isMergeableObject]: a non-null object (arrays included). *)
Definition isMergeableObject (v : value) : bool :=
  match v with
  | VArr _ | VObj _ => true
  | _ => false
  end.

(** [emptyTarget(val)] *)
Definition emptyTarget (v : value) : value :=
  if isArray v then VArr [] else VObj ∅.

(** [propertyIsOnObject(target, key)]: [key in target], and [false] where
    [in] throws, on a primitive.  [mergeObject] never has an array as
    target. *)
Definition propertyIsOnObject (target : value) (key : string) : bool :=
  match target with
  | VObj m => bool_decide (is_Some (m !! key)) || inherited_name key
  | VFun _ =>
      bool_decide (key ∈ Function_member_names) || inherited_name key
  | _ => false
  end.

(** [Object.hasOwnProperty.call(target, key) &&
    Object.propertyIsEnumerable.call(target, key)] *)
Definition hasOwnEnumerable (target : value) (key : string) : bool :=
  match target with
  | VObj m => bool_decide (is_Some (m !! key))
  | _ => false
  end.

(** [propertyIsUnsafe(target, key)]: the key is found on the target, up its
    prototype chain or not enumerable, but is no own enumerable property. *)
Definition propertyIsUnsafe (target : value) (key : string) : bool :=
  propertyIsOnObject target key && negb (hasOwnEnumerable target key).

(** [cloneUnlessOtherwiseSpecified(value, options)], which the package
    defines as [deepmerge(emptyTarget(value), value, options)] on mergeable
    values: written here by recursion on [value] ([clone_deepmerge] below
    relates the two).  [custom] is the [arrayMerge] option; without it the
    package clones each element of an array.  A key of an object that
    names a member of [Object.prototype] is unsafe on the empty target and
    is left out. *)
Fixpoint clone (custom : option ArrayMerge) (v : value) : value :=
  match v with
  | VArr l =>
      VArr (match custom with
            | Some f => f [] l
            | None => clone custom <$> l
            end)
  | VObj m =>
      VObj (map_imap (λ key x,
              if inherited_name key then None else Some (clone custom x)) m)
  | _ => v
  end.

(** [defaultArrayMerge] *)
Definition defaultArrayMerge (target source : list value) : list value :=
  clone None <$> (target ++ source).

Definition arrayMerge (custom : option ArrayMerge) : ArrayMerge :=
  default defaultArrayMerge custom.

(** The properties of the target that [mergeObject] copies first. *)
Definition target_props (target : value) : gmap string value :=
  if isMergeableObject target then own_props target else ∅.

(** [deepmerge(target, source, options)] with its [mergeObject]: arrays of
    both sides go to [arrayMerge], a mismatch takes a clone of the source,
    anything else is merged key by key: the properties of the target are
    cloned, then each key of the source that is not unsafe on the target is
    written over them, merged with the target's value when the target has
    the key and the source's value is mergeable.  A source that is neither
    an array nor a plain object is never passed by the context (its
    partials are objects, and the recursion is guarded by
    [isMergeableObject]); it is treated as a source without keys. *)
Fixpoint deepmerge (custom : option ArrayMerge) (target source : value)
  {struct source} : value :=
  match source with
  | VArr sa =>
      match target with
      | VArr ta => VArr (arrayMerge custom ta sa)
      | _ => clone custom source
      end
  | VObj sm =>
      match target with
      | VArr _ => clone custom source
      | _ =>
          VObj (map_imap (λ key sv,
                  if propertyIsUnsafe target key then None
                  else
                    Some (match target_props target !! key with
                          | Some tv =>
                              if isMergeableObject sv
                              then deepmerge custom tv sv
                              else clone custom sv
                          | None => clone custom sv
                          end)) sm
                ∪ (clone custom <$> target_props target))
      end
  | _ =>
      match target with
      | VArr _ => source
      | _ => VObj (clone custom <$> target_props target)
      end
  end.

End Deepmerge.
Export Deepmerge.

(** ** The runtime context *)

Module Runtime.

(** [overwriteMerge]: the [arrayMerge] strategy of the context. *)
Definition overwriteMerge (destinationArray sourceArray : list value)
  : list value :=
  [] ++ destinationArray ++ sourceArray.

(** What a method throws. *)
Inductive Error : Type :=
  | DirectoryNotDefined (alias : string)
      (* Error: Directory <alias> was not defined *)
  | ConfigFileNotDefined (name : string)
      (* TypeError: Configuration file <name> was not defined *)
  | Rejected (reason : string)
      (* any other failure of a handler *)
  | PathNotString
      (* TypeError of [path.join]: the path argument must be of type
         string *).

Inductive Result (A : Type) : Type :=
  | Ok (a : A)
  | Throw (e : Error).
Arguments Ok {A} a.
Arguments Throw {A} e.

Definition is_ok {A} (r : Result A) : bool :=
  match r with Ok _ => true | Throw _ => false end.

(** The private fields of the class.  [_usedFiles] is a JavaScript [Set]:
    its elements in insertion order, each once.  [_args], [_dir] and
    [_config_files] are plain objects, given by their own properties;
    [_config_files_proto] is the prototype of [_config_files] once an
    assignment to [__proto__] has replaced it, and [None] as long as it is
    [Object.prototype]. *)
Record RuntimeContext : Type := mkContext {
  _args : gmap string value;
  _env : gmap string string;
  _dir : gmap string string;
  _config : value;
  _config_files : gmap string value;
  _config_files_proto : option value;
  _usedFiles : list string;
}.

(** [Set.prototype.add] *)
Definition set_add (x : string) (s : list string) : list string :=
  if decide (x ∈ s) then s else s ++ [x].

(** [new RuntimeContext(env, dir)] *)
Definition new (env dir : gmap string string) : RuntimeContext :=
  {| _args := ∅; _env := env; _dir := dir; _config := VObj ∅;
     _config_files := ∅; _config_files_proto := None; _usedFiles := [] |}.

(** A method body: it reads and writes the fields and returns or throws.
    What was written before a throw stays written. *)
Definition M (A : Type) : Type := RuntimeContext → RuntimeContext * Result A.

Definition throw {A} (e : Error) : M A := λ ctx, (ctx, Throw e).
Definition modify (f : RuntimeContext → RuntimeContext) : M unit :=
  λ ctx, (f ctx, Ok tt).
Definition read {A} (f : RuntimeContext → A) : M A :=
  λ ctx, (ctx, Ok (f ctx)).

#[global] Instance ctx_ret : MRet M := λ A a ctx, (ctx, Ok a).
#[global] Instance ctx_bind : MBind M := λ A B k m ctx,
  match m ctx with
  | (ctx', Ok a) => k a ctx'
  | (ctx', Throw e) => (ctx', Throw e)
  end.

Definition set_args (a : gmap string value) (c : RuntimeContext) :=
  mkContext a (_env c) (_dir c) (_config c) (_config_files c)
    (_config_files_proto c) (_usedFiles c).
Definition set_dir (d : gmap string string) (c : RuntimeContext) :=
  mkContext (_args c) (_env c) d (_config c) (_config_files c)
    (_config_files_proto c) (_usedFiles c).
Definition set_config (v : value) (c : RuntimeContext) :=
  mkContext (_args c) (_env c) (_dir c) v (_config_files c)
    (_config_files_proto c) (_usedFiles c).
Definition set_config_files (f : gmap string value) (c : RuntimeContext) :=
  mkContext (_args c) (_env c) (_dir c) (_config c) f
    (_config_files_proto c) (_usedFiles c).
Definition set_config_files_proto (p : option value) (c : RuntimeContext) :=
  mkContext (_args c) (_env c) (_dir c) (_config c) (_config_files c) p
    (_usedFiles c).
Definition set_usedFiles (u : list string) (c : RuntimeContext) :=
  mkContext (_args c) (_env c) (_dir c) (_config c) (_config_files c)
    (_config_files_proto c) u.

(** [updateArgs(args)]: [Object.assign(this._args, args)] *)
Definition updateArgs (args : gmap string value) (ctx : RuntimeContext)
  : RuntimeContext :=
  set_args (assign (_args ctx) (VObj args)) ctx.

(** [getArg(name, defaultValue)]; a missing [defaultValue] is
    [VUndefined]. *)
Definition getArg (name : string) (defaultValue : value)
  (ctx : RuntimeContext) : value :=
  if nullish (member (_args ctx) name) then defaultValue
  else member (_args ctx) name.

(** [this._dir[alias]]: the path bound to the alias, or else what a plain
    object inherits under that name. *)
Definition dir_member (dir : gmap string string) (alias : string) : value :=
  match dir !! alias with
  | Some path => VStr path
  | None => default VUndefined (Object_prototype_member alias)
  end.

(** [setDirectory(alias, path)].  The assignment [this._dir[alias] = path]
    binds the alias, except under the name [__proto__], where it reaches
    the setter of [Object.prototype], which ignores a string. *)
Definition setDirectory (alias path : string) (ctx : RuntimeContext)
  : RuntimeContext :=
  if String.eqb alias "__proto__" && bool_decide (_dir ctx !! alias = None)
  then ctx
  else set_dir (<[alias := path]> (_dir ctx)) ctx.

(** [getDirectory(alias)] *)
Definition getDirectory (alias : string) : M value :=
  dir ← read _dir ;
  if nullish (dir_member dir alias)
  then throw (DirectoryNotDefined alias)
  else mret (dir_member dir alias).

(** [updateOptions(obj)] *)
Definition updateOptions (obj : gmap string value) (ctx : RuntimeContext)
  : RuntimeContext :=
  set_config (deepmerge (Some overwriteMerge) (_config ctx) (VObj obj)) ctx.

(** [getOption(name, defaults)]; a missing [defaults] is [VUndefined]. *)
Definition getOption (name : string) (defaults : value)
  (ctx : RuntimeContext) : value :=
  let value := get_prop (_config ctx) name in
  if typeof_object value && truthy value && negb (isArray value)
  then VObj (assign (assign ∅ defaults) value)
  else or_else value defaults.

(** [getUsedConfigFiles()] *)
Definition getUsedConfigFiles (ctx : RuntimeContext) : list string :=
  _usedFiles ctx.

(** What an object inherits under [k] from the prototype [proto]: [None]
    is [Object.prototype]; [null] gives nothing; an object gives its own
    properties and then those of [Object.prototype], [__proto__] reading as
    the prototype itself.  Of an array or a function only the enumerable
    properties are given; see [plain_prototype]. *)
Definition inherited_from (proto : option value) (k : string) : value :=
  match proto with
  | None => default VUndefined (Object_prototype_member k)
  | Some (VObj _ as p) | Some (VArr _ as p) | Some (VFun _ as p) =>
      match own_props p !! k with
      | Some v => v
      | None =>
          if String.eqb k "__proto__" then p
          else default VUndefined (Object_prototype_member k)
      end
  | Some _ => VUndefined
  end.

(** The prototypes whose members [inherited_from] gives in full: the one
    the table is created with, [null] and a plain object. *)
Definition plain_prototype (proto : option value) : bool :=
  match proto with
  | Some (VArr _) | Some (VFun _) => false
  | _ => true
  end.

(** [this._config_files[name]] *)
Definition file_member (ctx : RuntimeContext) (name : string) : value :=
  match _config_files ctx !! name with
  | Some v => v
  | None => inherited_from (_config_files_proto ctx) name
  end.

(** Whether an assignment to [__proto__] reaches the setter of
    [Object.prototype] through the prototype [proto]. *)
Definition reaches_setter (proto : option value) : bool :=
  match proto with
  | None => true
  | Some (VObj _ as p) | Some (VArr _ as p) | Some (VFun _ as p) =>
      bool_decide (own_props p !! "__proto__" = None)
  | Some _ => false
  end.

(** [Type(v)] is Object or Null: what the setter of [__proto__] accepts. *)
Definition object_or_null (v : value) : bool :=
  match v with
  | VNull | VObj _ | VArr _ | VFun _ => true
  | _ => false
  end.

(** [this._config_files[name] = v]: the assignment writes an own property,
    except under the name [__proto__] when the table has no such property
    of its own and the setter is reached: the setter replaces the prototype
    of the table by an object or [null] and ignores any other value. *)
Definition file_assign (name : string) (v : value) (ctx : RuntimeContext)
  : RuntimeContext :=
  if String.eqb name "__proto__"
     && bool_decide (_config_files ctx !! name = None)
     && reaches_setter (_config_files_proto ctx)
  then (if object_or_null v then set_config_files_proto (Some v) ctx
        else ctx)
  else set_config_files (<[name := v]> (_config_files ctx)) ctx.

(** [setConfigFile(name, contents)] *)
Definition setConfigFile (name : string) (contents : value)
  (ctx : RuntimeContext) : RuntimeContext :=
  file_assign name contents ctx.

(** [this._usedFiles.add(name)] *)
Definition mark_used (name : string) (ctx : RuntimeContext)
  : RuntimeContext :=
  set_usedFiles (set_add name (_usedFiles ctx)) ctx.

(** [if (this._config_files[name] == null) this._config_files[name] = null]:
    the mark of a file that was asked for and is missing. *)
Definition placeholder (name : string) (ctx : RuntimeContext)
  : RuntimeContext :=
  if nullish (file_member ctx name)
  then file_assign name VNull ctx
  else ctx.

(** [getConfigFileDefinition(name)] *)
Definition getConfigFileDefinition (name : string) : M value :=
  modify (mark_used name) ;;
  ret ← read (λ c, file_member c name) ;
  if negb (truthy ret) then throw (ConfigFileNotDefined name)
  else mret ret.

Section Collaborators.

(** Node's [path.join] on two segments, and [getFileContents] of
    [utils/FileUtil] with the promise it returns: both live outside the
    class and are taken as given. *)
Variable path_join : string → string → string.
Variable Promise : Type.
Variable getFileContents : RuntimeContext → value → string → Promise.

(** [getConfigFilePath(name)] *)
Definition getConfigFilePath (name : string) : M string :=
  modify (mark_used name) ;;
  modify (placeholder name) ;;
  dir ← getDirectory "dist.config" ;
  match dir with
  | VStr dir => mret (path_join dir name)
  | _ => throw PathNotString
  end.

(** [getConfigFileContents(name)] *)
Definition getConfigFileContents (name : string) : M Promise :=
  modify (mark_used name) ;;
  fileDef ← getConfigFileDefinition name ;
  fileName ← getConfigFilePath name ;
  read (λ c, getFileContents c fileDef fileName).

End Collaborators.

(** The request [execa] receives. *)
Record SpawnRequest : Type := mkSpawn {
  spawn_binary : string;
  spawn_args : option (list string);
  spawn_options : value;
}.

(** What [exec] does to the outside, in order. *)
Inductive Effect : Type :=
  | LogDebug (message : string)
  | Spawn (request : SpawnRequest).

(** The defaults of [exec], before [options] is merged over them. *)
Definition exec_defaults (project : value) (ctx : RuntimeContext) : value :=
  VObj (<["localDir" := project]>
       (<["preferLocal" := VBool true]>
       (<["stdio" := VStr "inherit"]>
       (<["env" := VObj (VStr <$> _env ctx)]> ∅)))).

(** [exec(binary, args, options)]: the effects it performs and the request
    it hands to [execa], or what it throws. *)
Definition exec (binary : string) (args : option (list string))
  (options : option (gmap string value)) (ctx : RuntimeContext)
  : list Effect * Result SpawnRequest :=
  let message :=
    "Invoking " +:+ binary +:+ " " +:+ String.concat " " (default [] args) in
  match getDirectory "project" ctx with
  | (_, Throw e) => ([LogDebug message], Throw e)
  | (_, Ok project) =>
      let request :=
        mkSpawn binary args
          (deepmerge None (exec_defaults project ctx)
             (VObj (default ∅ options))) in
      ([LogDebug message; Spawn request], Ok request)
  end.

(** [path.join(dir, name)] when [dir] is a normalised directory without a
    trailing separator and [name] a plain file name. *)
Definition join_plain (dir name : string) : string :=
  dir +:+ "/" +:+ name.

End Runtime.
Export Runtime.

(** ** Invoking an action from the command line *)

Module Cli.

(** The stages of an action. *)
Inductive Stage : Type := PreRun | Run | PostRun.

(** Where an invocation ends. *)
Inductive Lifecycle : Type :=
  | Done
  | Failed (e : Error).

(** A handler receives the shared context; its promise is awaited, so it is
    a method body that returns or fails. *)
Definition Handler : Type := M unit.

(** [Action]: [preRun] and [postRun] are optional, [run] is not. *)
Record Action : Type := mkAction {
  preRun : option Handler;
  run : Handler;
  postRun : option Handler;
}.

Definition handler (a : Action) (s : Stage) : option Handler :=
  match s with
  | PreRun => preRun a
  | Run => Some (run a)
  | PostRun => postRun a
  end.

(** What the process does, in order.  [LogInfo name] is the line
    [<name> step completed], [LogError name err] the line
    [<name> step failed: <err>], [Exit code] is [process.exit(code)]. *)
Inductive Event : Type :=
  | Invoked (s : Stage)
  | LogInfo (actionName : string)
  | LogError (actionName : string) (err : Error)
  | Exit (code : Z).

(** Modelled from the spec: [invokeAction] of [actions], which is not among
    the sources.  The stages run in the order PreRun, Run, PostRun, each
    only if defined; a failure at a stage goes to [Failed], skips the
    remaining stages and is propagated to the caller. *)
Fixpoint run_stages (a : Action) (stages : list Stage)
  (ctx : RuntimeContext) (trace : list Event)
  : RuntimeContext * list Event * Lifecycle :=
  match stages with
  | [] => (ctx, trace, Done)
  | s :: rest =>
      match handler a s with
      | None => run_stages a rest ctx trace
      | Some h =>
          match h ctx with
          | (ctx', Ok _) => run_stages a rest ctx' (trace ++ [Invoked s])
          | (ctx', Throw e) => (ctx', trace ++ [Invoked s], Failed e)
          end
      end
  end.

(** Modelled from the spec: [invokeAction(config, actionName)], on the
    action that [config] holds under [actionName]. *)
Definition invokeAction (a : Action) (ctx : RuntimeContext)
  : RuntimeContext * list Event * Lifecycle :=
  run_stages a [PreRun; Run; PostRun] ctx [].

(** The call-out of the command handler of [cli]:
    [invokeAction(..).then(log info).catch(log error; process.exit(1))]. *)
Definition call_action (a : Action) (actionName : string)
  (ctx : RuntimeContext) : RuntimeContext * list Event :=
  match invokeAction a ctx with
  | (ctx', trace, Done) => (ctx', trace ++ [LogInfo actionName])
  | (ctx', trace, Failed err) =>
      (ctx', trace ++ [LogError actionName err; Exit 1])
  end.

(** The exit status of the process: that of the first [process.exit], and
    0 when the process runs to its end. *)
Fixpoint exit_status (trace : list Event) : Z :=
  match trace with
  | [] => 0
  | Exit code :: _ => code
  | _ :: rest => exit_status rest
  end.

(** The context in which [run] starts, when the invocation gets there. *)
Definition before_run (a : Action) (ctx : RuntimeContext)
  : option RuntimeContext :=
  match preRun a with
  | None => Some ctx
  | Some h =>
      match h ctx with
      | (ctx', Ok _) => Some ctx'
      | (_, Throw _) => None
      end
  end.

End Cli.
Export Cli.

(** ** Sequences of calls on one context *)

Module Calls.

Section Collaborators.

Variable path_join : string → string → string.
Variable Promise : Type.
Variable getFileContents : RuntimeContext → value → string → Promise.

(** A call of a method that can change the context. *)
Inductive Call : Type :=
  | CallUpdateArgs (args : gmap string value)
  | CallSetDirectory (alias path : string)
  | CallUpdateOptions (obj : gmap string value)
  | CallSetConfigFile (name : string) (contents : value)
  | CallGetConfigFilePath (name : string)
  | CallGetConfigFileDefinition (name : string)
  | CallGetConfigFileContents (name : string).

(** The context after a call, whether it returned or threw. *)
Definition perform (ctx : RuntimeContext) (c : Call) : RuntimeContext :=
  match c with
  | CallUpdateArgs args => updateArgs args ctx
  | CallSetDirectory alias path => setDirectory alias path ctx
  | CallUpdateOptions obj => updateOptions obj ctx
  | CallSetConfigFile name contents => setConfigFile name contents ctx
  | CallGetConfigFilePath name => (getConfigFilePath path_join name ctx).1
  | CallGetConfigFileDefinition name => (getConfigFileDefinition name ctx).1
  | CallGetConfigFileContents name =>
      (getConfigFileContents path_join Promise getFileContents name ctx).1
  end.

Definition perform_all (ctx : RuntimeContext) (cs : list Call)
  : RuntimeContext :=
  foldl perform ctx cs.

(** The name a call passes to one of the three accessors. *)
Definition accessed (c : Call) : option string :=
  match c with
  | CallGetConfigFilePath name
  | CallGetConfigFileDefinition name
  | CallGetConfigFileContents name => Some name
  | _ => None
  end.

End Collaborators.

End Calls.
Export Calls.

(** ** The size of a value *)

Fixpoint value_size (v : value) : nat :=
  match v with
  | VArr l => S (sum_list (value_size <$> l))
  | VObj m => S (map_fold (λ _ x n, value_size x + n) 0 m)
  | _ => 1
  end.

(** The array found at a path, empty when there is none. *)
Definition array_at (ks : list string) (v : value) : list value :=
  match get_path ks v with
  | Some (VArr l) => l
  | _ => []
  end.

(** An [arrayMerge] option that leaves an array merged into the empty array
    as it is: the package's default and [overwriteMerge] do. *)
Definition keeps_arrays (custom : option ArrayMerge) : Prop :=
  ∀ f, custom = Some f → ∀ l, f [] l = l.



(** The invocations that precede that of [run]. *)
Definition invoked_before_run (a : Action) : list Event :=
  match preRun a with
  | Some _ => [Invoked PreRun]
  | None => []
  end.

(** ** The mode and the merge utility of the context *)

Module Mode.

(** [getMode()]: [this._env.NODE_ENV || "development"] *)
Definition getMode (ctx : RuntimeContext) : string :=
  match _env ctx !! "NODE_ENV" with
  | Some mode => if String.eqb mode "" then "development" else mode
  | None => "development"
  end.

(** [isDevelop()] *)
Definition isDevelop (ctx : RuntimeContext) : bool :=
  String.eqb (getMode ctx) "development".

(** [isProduction()] *)
Definition isProduction (ctx : RuntimeContext) : bool :=
  String.eqb (getMode ctx) "production".

(** [util.merge(...args)]: [merge.all(args, { arrayMerge: overwriteMerge })],
    which the package defines as the reduction of [args] by [deepmerge]
    from the empty object. *)
Definition util_merge (args : list value) : value :=
  foldl (deepmerge (Some overwriteMerge)) (VObj ∅) args.

End Mode.
Export Mode.

(** ** Registering the actions on the command line *)

Module Registration.

(** [ActionArgument]; a field that is left out is [None]. *)
Inductive ArgType : Type := TString | TNumber | TBoolean.

Record ActionArgument : Type := mkArgument {
  arg_type : option ArgType;
  arg_positional : option bool;
  arg_description : option string;
  arg_required : option bool;
  arg_short : option string;
}.

(** The declarative part of an [Action].  [arguments] lists the arguments
    in the order of [Object.keys]. *)
Record ActionInfo : Type := mkInfo {
  description : option string;
  arguments : option (list (string * ActionArgument));
}.

(** [argv.includes("-D") || argv.includes("--debug")] *)
Definition useDebug (argv : list string) : bool :=
  bool_decide ("-D" ∈ argv) || bool_decide ("--debug" ∈ argv).

(** [argv.includes("-DD")] *)
Definition useVerboseDebug (argv : list string) : bool :=
  bool_decide ("-DD" ∈ argv).

(** The level of the logger after the first lines of [cli], from the level
    it had. *)
Definition logger_level (argv : list string) (level : string) : string :=
  if useDebug argv || useVerboseDebug argv
  then (if useVerboseDebug argv then "silly" else "debug")
  else level.

(** [if (useDebug) config.context.updateOptions({ debug: true })] *)
Definition configure_debug (argv : list string) (ctx : RuntimeContext)
  : RuntimeContext :=
  if useDebug argv then updateOptions {["debug" := VBool true]} ctx else ctx.

(** [String.prototype.trim], on the white space of ASCII. *)
Definition is_whitespace (c : Ascii.ascii) : bool :=
  bool_decide (Ascii.nat_of_ascii c ∈ [9; 10; 11; 12; 13; 32]).

Fixpoint trimStart (s : string) : string :=
  match s with
  | EmptyString => EmptyString
  | String c s' => if is_whitespace c then trimStart s' else s
  end.

Fixpoint trimEnd (s : string) : string :=
  match s with
  | EmptyString => EmptyString
  | String c s' =>
      match trimEnd s' with
      | EmptyString =>
          if is_whitespace c then EmptyString else String c EmptyString
      | rest => String c rest
      end
  end.

Definition trim (s : string) : string := trimEnd (trimStart s).

(** [action.arguments || {}] *)
Definition arguments_of (info : ActionInfo)
  : list (string * ActionArgument) :=
  default [] (arguments info).

(** [if (arg.positional)] *)
Definition is_positional (arg : ActionArgument) : bool :=
  default false (arg_positional arg).

(** The [reduce] that collects [[name]] for each positional argument. *)
Definition positional_names (info : ActionInfo) : list string :=
  foldl (λ names entry,
           if is_positional entry.2
           then names ++ ["[" +:+ entry.1 +:+ "]"]
           else names) [] (arguments_of info).

(** [positionalExpr] *)
Definition positionalExpr (info : ActionInfo) : string :=
  " " +:+ String.concat " " (positional_names info).

(** The command given to [cli.command]. *)
Definition command (actionName : string) (info : ActionInfo) : string :=
  actionName +:+ trim (positionalExpr info).

(** The description given to [cli.command]:
    [action.description || `Runs the '${actionName}' action from the preset`] *)
Definition command_description (actionName : string) (info : ActionInfo)
  : string :=
  match description info with
  | Some text =>
      if String.eqb text ""
      then "Runs the '" +:+ actionName +:+ "' action from the preset"
      else text
  | None => "Runs the '" +:+ actionName +:+ "' action from the preset"
  end.

(** A call of [yargs.positional] or of [yargs.option] with its settings. *)
Record Declaration : Type := mkDeclaration {
  decl_positional : bool;
  decl_name : string;
  decl_demandOption : option bool;
  decl_describe : option string;
  decl_alias : option string;
  decl_type : ArgType;
}.

Definition declare (entry : string * ActionArgument) : Declaration :=
  let arg := entry.2 in
  mkDeclaration (is_positional arg) entry.1 (arg_required arg)
    (arg_description arg) (arg_short arg) (default TString (arg_type arg)).

(** The builder given to [cli.command]: the calls it makes on [yargs], in
    order. *)
Definition builder (info : ActionInfo) : list Declaration :=
  foldl (λ calls entry, calls ++ [declare entry]) [] (arguments_of info).

Section Handler.

(** JavaScript's [String] on the tokens of a command line. *)
Variable String_ : value → string.

(** The first two statements of the handler given to [cli.command], on the
    parsed [argv] whose [_] holds [positionals]:
    [updateOptions({ argv: argv._.slice(1).map(String) })] and
    [updateArgs(argv)]. *)
Definition pass_arguments (positionals : list value)
  (named : gmap string value) (ctx : RuntimeContext) : RuntimeContext :=
  let argv := <["_" := VArr positionals]> named in
  updateArgs argv
    (updateOptions
       {["argv" := VArr ((λ v, VStr (String_ v)) <$> drop 1 positionals)]}
       ctx).

End Handler.

End Registration.
Export Registration.

(** ** The class as [entry-cli.ts] carries it *)

Module Legacy.

(** The earlier [RuntimeContext]: no arguments and no used files. *)
Record LegacyContext : Type := mkLegacy {
  legacy_env : gmap string string;
  legacy_dir : gmap string string;
  legacy_config : value;
  legacy_config_files : gmap string value;
  legacy_config_files_proto : option value;
}.

(** The current context that holds what an earlier one holds. *)
Definition upgrade (ctx : LegacyContext) : RuntimeContext :=
  mkContext ∅ (legacy_env ctx) (legacy_dir ctx) (legacy_config ctx)
    (legacy_config_files ctx) (legacy_config_files_proto ctx) [].

(** [this._config_files[name]] and [this._config_files[name] = null] on
    the fields of the earlier class. *)
Definition file_member (ctx : LegacyContext) (name : string) : value :=
  match legacy_config_files ctx !! name with
  | Some v => v
  | None => inherited_from (legacy_config_files_proto ctx) name
  end.

Definition file_assign_null (name : string) (ctx : LegacyContext)
  : LegacyContext :=
  if String.eqb name "__proto__"
     && bool_decide (legacy_config_files ctx !! name = None)
     && reaches_setter (legacy_config_files_proto ctx)
  then mkLegacy (legacy_env ctx) (legacy_dir ctx) (legacy_config ctx)
         (legacy_config_files ctx) (Some VNull)
  else mkLegacy (legacy_env ctx) (legacy_dir ctx) (legacy_config ctx)
         (<[name := VNull]> (legacy_config_files ctx))
         (legacy_config_files_proto ctx).

(** [getConfigFilePath(name)], with [path.join] as before: the context it
    leaves and what it returns or throws. *)
Definition getConfigFilePath (path_join : string → string → string)
  (name : string) (ctx : LegacyContext) : LegacyContext * Result string :=
  let ctx' :=
    if nullish (file_member ctx name) then file_assign_null name ctx
    else ctx in
  if nullish (dir_member (legacy_dir ctx') "dist.config")
  then (ctx', Throw (DirectoryNotDefined "dist.config"))
  else
    match dir_member (legacy_dir ctx') "dist.config" with
    | VStr dir => (ctx', Ok (path_join dir name))
    | _ => (ctx', Throw PathNotString)
    end.

End Legacy.

(** The values that are neither objects nor functions. *)
Definition primitive (v : value) : bool :=
  match v with
  | VUndefined | VNull | VBool _ | VNum _ | VStr _ => true
  | _ => false
  end.

(** The calls that leave the directory of [alias] alone. *)
Definition keeps_directory (alias : string) (c : Call) : bool :=
  match c with
  | CallSetDirectory alias' _ => negb (String.eqb alias alias')
  | _ => true
  end.

(** The calls that do not register a definition under [name]. *)
Definition keeps_definition (name : string) (c : Call) : bool :=
  match c with
  | CallSetConfigFile name' _ => negb (String.eqb name name')
  | _ => true
  end.

(** * Properties *)

(** ** Induction over values *)

Lemma value_size_elem (l : list value) (x : value) :
  x ∈ l → value_size x < value_size (VArr l).
Proof.
  intros Hx. simpl. induction Hx as [x l|x y l _ IH]; csimpl; lia.
Qed.

Lemma value_size_prop (m : gmap string value) (k : string) (x : value) :
  m !! k = Some x → value_size x < value_size (VObj m).
Proof.
  intros Hk. simpl.
  rewrite (map_fold_delete_L _ _ k x m); [lia | intros; lia | done].
Qed.

(** Structural induction with the elements of an array and the properties
    of an object as induction hypotheses. *)
Lemma value_ind (P : value → Prop) :
  P VUndefined → P VNull → (∀ b, P (VBool b)) → (∀ n, P (VNum n)) →
  (∀ s, P (VStr s)) → (∀ t, P (VFun t)) →
  (∀ l, Forall P l → P (VArr l)) →
  (∀ m, map_Forall (λ _, P) m → P (VObj m)) →
  ∀ v, P v.
Proof.
  intros Hu Hn Hb Hz Hs Hf Ha Ho v.
  remember (value_size v) as n eqn:Hsz.
  revert v Hsz. induction (lt_wf n) as [n _ IH]. intros v ->.
  destruct v as [| | | | | |l|m]; auto.
  - apply Ha, Forall_forall. intros x Hx.
    eapply IH; [by apply value_size_elem|done].
  - apply Ho. intros k x Hk.
    eapply IH; [by eapply value_size_prop|done].
Qed.

(** ** The merge *)

Lemma index_of_None (k : string) (names : list string) :
  k ∉ names → index_of k names = None.
Proof.
  induction names as [|n names IH]; [done|].
  intros [Hne Hk]%not_elem_of_cons. cbn [index_of].
  destruct (String.eqb_spec n k) as [->|_]; [done|].
  by rewrite IH.
Qed.

Lemma inherited_name_member (k : string) :
  inherited_name k = false → Object_prototype_member k = None.
Proof.
  unfold inherited_name, Object_prototype_member.
  intros Hk%bool_decide_eq_false.
  destruct (String.eqb_spec k "__proto__") as [->|_].
  - exfalso. apply Hk. unfold Object_prototype_names.
    repeat (first [apply list_elem_of_here | apply list_elem_of_further]).
  - by rewrite index_of_None.
Qed.

Lemma safe_key_inherited (k : string) :
  safe_key k = true → inherited_name k = false.
Proof. unfold safe_key. by destruct (inherited_name k). Qed.

Lemma safe_key_unsafe (target : value) (k : string) :
  safe_key k = true → propertyIsUnsafe target k = false.
Proof.
  unfold safe_key, propertyIsUnsafe. intros [Hi Hf]%andb_true_iff.
  apply negb_true_iff in Hi, Hf.
  destruct target as [| | | | | |l|m]; simpl; rewrite ?Hi, ?Hf; try done.
  by destruct (bool_decide (is_Some (m !! k))).
Qed.

Section MergeFacts.

Context (custom : option ArrayMerge).

(** The package's clone is a merge into an empty target. *)
Lemma clone_deepmerge (v : value) :
  isMergeableObject v = true →
  clone custom v = deepmerge custom (emptyTarget v) v.
Proof.
  intros Hm. destruct v as [| | | | | |l|m]; try discriminate; simpl.
  - f_equal. destruct custom; reflexivity.
  - f_equal. apply map_eq. intros k.
    rewrite lookup_union, lookup_fmap, !map_lookup_imap.
    unfold target_props, propertyIsUnsafe. simpl.
    rewrite !lookup_empty. simpl.
    destruct (m !! k); simpl; [|done].
    by destruct (inherited_name k).
Qed.

(** A value that is not an array or an object is its own clone. *)
Lemma clone_scalar (v : value) :
  isMergeableObject v = false → clone custom v = v.
Proof. by destruct v. Qed.

(** One property of a merged object. *)
Lemma deepmerge_lookup (target : value) (sm : gmap string value) :
  isArray target = false →
  ∃ m, deepmerge custom target (VObj sm) = VObj m ∧ ∀ k,
    m !! k =
      match sm !! k with
      | Some sv =>
          if propertyIsUnsafe target k
          then clone custom <$> target_props target !! k
          else
            Some (match target_props target !! k with
                  | Some tv =>
                      if isMergeableObject sv then deepmerge custom tv sv
                      else clone custom sv
                  | None => clone custom sv
                  end)
      | None => clone custom <$> target_props target !! k
      end.
Proof.
  intros Ha. eexists. split.
  - destruct target; try discriminate; reflexivity.
  - intros k. rewrite lookup_union, map_lookup_imap, lookup_fmap.
    destruct (sm !! k) as [sv|]; simpl.
    + destruct (propertyIsUnsafe target k); simpl.
      * by destruct (target_props target !! k).
      * by destruct (target_props target !! k).
    + by destruct (target_props target !! k).
Qed.

End MergeFacts.

Lemma keeps_arrays_default : keeps_arrays None.
Proof. intros f Hf. discriminate. Qed.

Lemma keeps_arrays_overwrite : keeps_arrays (Some overwriteMerge).
Proof. intros f [= <-] l. reflexivity. Qed.

#[local] Hint Resolve keeps_arrays_default keeps_arrays_overwrite : core.

(** A path that ends in an array starts at a mergeable value. *)
Lemma get_path_array_mergeable (ks : list string) (v : value)
    (a : list value) :
  get_path ks v = Some (VArr a) → isMergeableObject v = true.
Proof.
  destruct ks as [|k ks]; simpl.
  - by intros [= ->].
  - by destruct v.
Qed.

(** The clone keeps what a path of safe keys reaches. *)
Lemma get_path_clone (ks : list string) :
  Forall (λ k, safe_key k = true) ks →
  ∀ (source : value) (a : list value),
    get_path ks source = Some (VArr a) →
    get_path ks (clone (Some overwriteMerge) source) = Some (VArr a).
Proof.
  induction 1 as [|k ks Hk _ IH]; intros source a Hs.
  - simpl in Hs. by injection Hs as ->.
  - destruct source as [| | | | | |?|sm]; try discriminate.
    cbn [get_path] in *.
    destruct (sm !! k) as [sv|] eqn:Hsv; [|discriminate].
    cbn [clone get_path]. rewrite map_lookup_imap, Hsv.
    cbn [mbind option_bind]. rewrite (safe_key_inherited _ Hk).
    by apply IH.
Qed.

(** The array at a path of safe keys of the source is appended to the one
    the destination has there. *)
Lemma deepmerge_path (ks : list string) :
  Forall (λ k, safe_key k = true) ks →
  ∀ (target source : value) (a : list value),
    get_path ks source = Some (VArr a) →
    get_path ks (deepmerge (Some overwriteMerge) target source)
    = Some (VArr (array_at ks target ++ a)).
Proof.
  induction 1 as [|k ks Hk Hks IH]; intros target source a Hs.
  - simpl in Hs. injection Hs as ->. unfold array_at.
    destruct target; reflexivity.
  - destruct source as [| | | | | |?|sm]; try discriminate.
    pose proof Hs as Hsource. cbn [get_path] in Hs.
    destruct (sm !! k) as [sv|] eqn:Hsv; [|discriminate].
    cbn [mbind option_bind] in Hs.
    destruct (isArray target) eqn:Ha.
    { destruct target; try discriminate.
      change (deepmerge _ _ _) with (clone (Some overwriteMerge) (VObj sm)).
      rewrite (get_path_clone (k :: ks)) with (a := a);
        [done|by constructor|done]. }
    destruct (deepmerge_lookup (Some overwriteMerge) target sm Ha)
      as (m & -> & Hm).
    specialize (Hm k). rewrite Hsv, (safe_key_unsafe _ _ Hk) in Hm.
    cbn [get_path]. rewrite Hm. cbn [mbind option_bind].
    rewrite (get_path_array_mergeable _ _ _ Hs).
    unfold array_at, target_props.
    destruct target as [| | | | | |?|tm]; try discriminate;
      cbn [isMergeableObject own_props get_path];
      rewrite ?lookup_empty; cbn [mbind option_bind];
      try (by rewrite (get_path_clone ks Hks sv a Hs)).
    destruct (tm !! k) as [tv|]; cbn [mbind option_bind].
    + by apply IH.
    + by rewrite (get_path_clone ks Hks sv a Hs).
Qed.

(** ** The configuration *)

Section Options.

Implicit Types (ctx : RuntimeContext) (obj : gmap string value).

Lemma updateOptions_config ctx obj :
  _config (updateOptions obj ctx)
  = deepmerge (Some overwriteMerge) (_config ctx) (VObj obj).
Proof. reflexivity. Qed.




(** C3: the code returns an inherited member where the claim gives the
    default.  On a new context nothing is stored under [toString], yet
    [getOption("toString", "dflt")] is the function [Object.prototype]
    holds there, and under [__proto__] it takes the object branch. *)
Theorem getOption_inherited_member (env dir : gmap string string) :
  get_path ["toString"] (_config (new env dir)) = None ∧
  getOption "toString" (VStr "dflt") (new env dir) = VFun 8 ∧
  getOption "toString" (VStr "dflt") (new env dir) ≠ VStr "dflt" ∧
  getOption "__proto__" (VNum 1) (new env dir) = VObj ∅.
Proof. repeat split; try reflexivity. discriminate. Qed.

Lemma getOption_own_value ctx (tm : gmap string value) (name : string) :
  _config ctx = VObj tm → inherited_name name = false →
  get_prop (_config ctx) name = get tm name.
Proof.
  intros -> Hn. cbn [get_prop]. unfold member, get.
  by rewrite (inherited_name_member _ Hn).
Qed.

(** X25: on a configuration object and for a name that names no member of
    [Object.prototype], [getOption(name, defaults)] yields, for a stored
    plain object, the properties of [defaults] overlaid by those of the
    stored object, one level deep; any other stored value when it is
    truthy; and [defaults] when it is falsy or nothing is stored. *)
Theorem getOption_own ctx (tm : gmap string value) (name : string)
    (defaults : value) :
  _config ctx = VObj tm →
  inherited_name name = false →
  getOption name defaults ctx
  = match tm !! name with
    | Some (VObj stored) => VObj (stored ∪ own_props defaults)
    | Some stored => if truthy stored then stored else defaults
    | None => defaults
    end.
Proof.
  intros Hc Hn. unfold getOption.
  rewrite (getOption_own_value ctx tm name Hc Hn). unfold get, assign, or_else.
  destruct (tm !! name) as [[| | | | | |l|m]|]; simpl; try reflexivity.
  by rewrite (right_id_L ∅ (∪)).
Qed.

Lemma getOption_own_witness :
  getOption "x" (VObj {["a" := VNum 1]})
    (updateOptions {["x" := VObj {["b" := VNum 2]}]} (new ∅ ∅))
  = VObj ({["b" := VNum 2]} ∪ {["a" := VNum 1]}).
Proof.
  exact (getOption_own
           (updateOptions {["x" := VObj {["b" := VNum 2]}]} (new ∅ ∅))
           {["x" := VObj {["b" := VNum 2]}]} "x" (VObj {["a" := VNum 1]})
           eq_refl eq_refl).
Defined.

End Options.

(** ** Arguments and directories *)

Section Stores.

Implicit Types (ctx : RuntimeContext).

Lemma not_inherited_proto (k : string) :
  inherited_name k = false → String.eqb k "__proto__" = false.
Proof.
  intros Hk. destruct (String.eqb_spec k "__proto__") as [->|]; [|done].
  discriminate.
Qed.

(** C6: the code returns an inherited member where the claim gives the
    default.  On a new context no argument is stored, yet
    [getArg("constructor", "dflt")] is the function [Object.prototype]
    holds under that name. *)
Theorem getArg_inherited_member (env dir : gmap string string) :
  _args (new env dir) !! "constructor" = None ∧
  getArg "constructor" (VStr "dflt") (new env dir) = VFun 0 ∧
  getArg "constructor" (VStr "dflt") (new env dir) ≠ VStr "dflt".
Proof. repeat split; try reflexivity. discriminate. Qed.

(** X26: for a name that names no member of [Object.prototype],
    [getArg(name, default)] returns the stored value whenever it is neither
    [null] nor [undefined], and the default only then: a stored [0],
    [false] or [""] is returned as it is. *)
Theorem getArg_own ctx (name : string) (defaultValue : value) :
  inherited_name name = false →
  getArg name defaultValue ctx
  = match get (_args ctx) name with
    | VUndefined | VNull => defaultValue
    | stored => stored
    end ∧
  Forall (λ stored,
    getArg name defaultValue (updateArgs {[name := stored]} ctx) = stored)
    [VNum 0; VBool false; VStr ""].
Proof.
  intros Hn. split.
  - unfold getArg, member, get. rewrite (inherited_name_member _ Hn).
    by destruct (_args ctx !! name) as [[]|].
  - repeat constructor; unfold getArg, updateArgs, assign, member; simpl;
      rewrite lookup_union, lookup_singleton_eq;
      by destruct (_args ctx !! name).
Qed.

Lemma getArg_own_witness :
  getArg "port" (VNum 8080) (updateArgs {["port" := VNum 0]} (new ∅ ∅))
  = VNum 0.
Proof.
  exact (proj1 (getArg_own (updateArgs {["port" := VNum 0]} (new ∅ ∅))
                  "port" (VNum 8080) eq_refl)).
Defined.

(** C5: the code does not throw where its documentation and the claim say
    it does.  With no directory set, [getDirectory("constructor")] returns
    the function [Object.prototype] holds under that name; and
    [setDirectory("__proto__", "/tmp")] binds nothing, so that
    [getDirectory("__proto__")] returns [Object.prototype], not [/tmp]. *)
Theorem getDirectory_inherited_member (env : gmap string string) :
  _dir (new env ∅) !! "constructor" = None ∧
  (getDirectory "constructor" (new env ∅)).2 = Ok (VFun 0) ∧
  _dir (setDirectory "__proto__" "/tmp" (new env ∅)) = ∅ ∧
  (getDirectory "__proto__" (setDirectory "__proto__" "/tmp" (new env ∅))).2
  = Ok (VObj ∅).
Proof. repeat split. Qed.

Lemma getDirectory_unfold (alias : string) ctx :
  getDirectory alias ctx
  = (ctx, if nullish (dir_member (_dir ctx) alias)
          then Throw (DirectoryNotDefined alias)
          else Ok (dir_member (_dir ctx) alias)).
Proof.
  unfold getDirectory, mbind, ctx_bind, read. simpl.
  by destruct (nullish (dir_member (_dir ctx) alias)).
Qed.

Lemma getDirectory_own (alias : string) ctx :
  inherited_name alias = false →
  getDirectory alias ctx
  = (ctx, match _dir ctx !! alias with
          | None => Throw (DirectoryNotDefined alias)
          | Some path => Ok (VStr path)
          end).
Proof.
  intros Hn. rewrite getDirectory_unfold. unfold dir_member.
  rewrite (inherited_name_member _ Hn).
  by destruct (_dir ctx !! alias).
Qed.

Lemma setDirectory_own (alias path : string) ctx :
  inherited_name alias = false →
  setDirectory alias path ctx = set_dir (<[alias := path]> (_dir ctx)) ctx.
Proof.
  intros Hn. unfold setDirectory. by rewrite (not_inherited_proto _ Hn).
Qed.

(** X27: for an alias that names no member of [Object.prototype],
    [getDirectory(alias)] fails with the directory-not-defined error
    whenever no path is bound to [alias], and returns the bound path as it
    is otherwise; after [setDirectory(alias, p)] it returns [p] exactly,
    whatever was bound before, the new binding having replaced it. *)
Theorem directory_own ctx (alias path previous : string) :
  inherited_name alias = false →
  getDirectory alias ctx
  = (ctx, match _dir ctx !! alias with
          | None => Throw (DirectoryNotDefined alias)
          | Some p => Ok (VStr p)
          end) ∧
  getDirectory alias (setDirectory alias path ctx)
  = (setDirectory alias path ctx, Ok (VStr path)) ∧
  setDirectory alias path (setDirectory alias previous ctx)
  = setDirectory alias path ctx.
Proof.
  intros Hn. split; [by apply getDirectory_own|]. split.
  - rewrite getDirectory_own by done. rewrite setDirectory_own by done.
    simpl. by rewrite lookup_insert_eq.
  - rewrite !setDirectory_own by done. unfold set_dir. simpl.
    by rewrite insert_insert_eq.
Qed.

Lemma directory_own_witness :
  (getDirectory "missing" (new ∅ ∅)).2
  = Throw (DirectoryNotDefined "missing") ∧
  (getDirectory "missing" (setDirectory "missing" "/tmp" (new ∅ ∅))).2
  = Ok (VStr "/tmp").
Proof.
  split.
  - exact (f_equal snd
             (proj1 (directory_own (new ∅ ∅) "missing" "/tmp" "/var"
                       eq_refl))).
  - exact (f_equal snd
             (proj1 (proj2 (directory_own (new ∅ ∅) "missing" "/tmp" "/var"
                              eq_refl)))).
Defined.

End Stores.

(** ** The configuration-file registry *)

Section Registry.

Context (path_join : string → string → string) (Promise : Type)
  (getFileContents : RuntimeContext → value → string → Promise).

Implicit Types (ctx : RuntimeContext) (name : string).

#[local] Abbreviation getConfigFilePath := (getConfigFilePath path_join).
#[local] Abbreviation getConfigFileContents :=
  (getConfigFileContents path_join Promise getFileContents).

Lemma nullish_not_truthy (v : value) : nullish v = true → truthy v = false.
Proof. by destruct v. Qed.

Lemma truthy_not_nullish (v : value) : truthy v = true → nullish v = false.
Proof. by destruct v. Qed.

(** An own entry that is not [null] or [undefined] is what the table
    reads. *)
Lemma file_member_own name ctx :
  nullish (get (_config_files ctx) name) = false →
  file_member ctx name = get (_config_files ctx) name.
Proof.
  unfold file_member, get. by destruct (_config_files ctx !! name).
Qed.

Lemma file_member_mark_used name (used : string) ctx :
  file_member (mark_used used ctx) name = file_member ctx name.
Proof. reflexivity. Qed.

(** Where the table reads [null] or [undefined], the assignment of the
    placeholder writes an own property. *)
Lemma file_assign_null name ctx :
  nullish (file_member ctx name) = true →
  file_assign name VNull ctx
  = set_config_files (<[name := VNull]> (_config_files ctx)) ctx.
Proof.
  unfold file_assign, file_member. intros Hnull.
  destruct (String.eqb_spec name "__proto__") as [->|]; [|done].
  destruct (_config_files ctx !! "__proto__") as [v|] eqn:Hown; [done|].
  rewrite bool_decide_eq_true_2 by done. cbn [andb].
  destruct (_config_files_proto ctx) as [[| | | | | |l|m]|]; try done.
  - simpl in *. destruct (indexed l !! "__proto__"); done.
  - simpl in *. destruct (m !! "__proto__"); done.
Qed.

Lemma placeholder_unfold name ctx :
  placeholder name ctx
  = if nullish (file_member ctx name)
    then set_config_files (<[name := VNull]> (_config_files ctx)) ctx
    else ctx.
Proof.
  unfold placeholder.
  destruct (nullish (file_member ctx name)) eqn:Hn; [|done].
  by apply file_assign_null.
Qed.

Lemma placeholder_fields name ctx :
  _args (placeholder name ctx) = _args ctx ∧
  _env (placeholder name ctx) = _env ctx ∧
  _dir (placeholder name ctx) = _dir ctx ∧
  _config (placeholder name ctx) = _config ctx ∧
  _config_files_proto (placeholder name ctx) = _config_files_proto ctx ∧
  _usedFiles (placeholder name ctx) = _usedFiles ctx.
Proof.
  rewrite placeholder_unfold. by destruct (nullish (file_member ctx name)).
Qed.

Lemma placeholder_usedFiles name ctx :
  _usedFiles (placeholder name ctx) = _usedFiles ctx.
Proof. apply placeholder_fields. Qed.

Lemma placeholder_files name ctx :
  _config_files (placeholder name ctx)
  = if nullish (file_member ctx name)
    then <[name := VNull]> (_config_files ctx)
    else _config_files ctx.
Proof.
  rewrite placeholder_unfold. by destruct (nullish (file_member ctx name)).
Qed.

Lemma placeholder_defined name ctx :
  nullish (file_member ctx name) = false → placeholder name ctx = ctx.
Proof. unfold placeholder. by intros ->. Qed.

Lemma getConfigFileDefinition_unfold name ctx :
  getConfigFileDefinition name ctx
  = (mark_used name ctx,
     if truthy (file_member ctx name)
     then Ok (file_member ctx name)
     else Throw (ConfigFileNotDefined name)).
Proof.
  unfold getConfigFileDefinition, mbind, ctx_bind, modify, read. simpl.
  rewrite file_member_mark_used.
  by destruct (truthy (file_member ctx name)).
Qed.

(** The alias [dist.config] names no inherited member: only a bound path
    is found under it. *)
Lemma dir_member_dist (dir : gmap string string) :
  dir_member dir "dist.config"
  = from_option VStr VUndefined (dir !! "dist.config").
Proof. unfold dir_member. by destruct (dir !! "dist.config"). Qed.

Lemma getConfigFilePath_unfold name ctx :
  getConfigFilePath name ctx
  = (placeholder name (mark_used name ctx),
     match _dir ctx !! "dist.config" with
     | Some dir => Ok (path_join dir name)
     | None => Throw (DirectoryNotDefined "dist.config")
     end).
Proof.
  unfold Runtime.getConfigFilePath.
  unfold mbind at 1, ctx_bind at 1, modify at 1.
  unfold mbind at 1, ctx_bind at 1, modify at 1.
  unfold mbind, ctx_bind. rewrite getDirectory_unfold, dir_member_dist.
  destruct (placeholder_fields name (mark_used name ctx))
    as (_ & _ & -> & _).
  cbn [_dir mark_used set_usedFiles].
  by destruct (_dir ctx !! "dist.config").
Qed.

Lemma getConfigFileContents_unfold name ctx :
  getConfigFileContents name ctx
  = let ctx1 := mark_used name (mark_used name ctx) in
    if truthy (file_member ctx name)
    then
      let ctx2 := placeholder name (mark_used name ctx1) in
      (ctx2,
       match _dir ctx !! "dist.config" with
       | Some dir =>
           Ok (getFileContents ctx2 (file_member ctx name)
                 (path_join dir name))
       | None => Throw (DirectoryNotDefined "dist.config")
       end)
    else (ctx1, Throw (ConfigFileNotDefined name)).
Proof.
  unfold Runtime.getConfigFileContents.
  unfold mbind at 1, ctx_bind at 1, modify at 1. simpl.
  unfold mbind at 1, ctx_bind at 1.
  rewrite getConfigFileDefinition_unfold. simpl.
  rewrite !file_member_mark_used.
  destruct (truthy (file_member ctx name)); [|done].
  unfold mbind, ctx_bind. rewrite getConfigFilePath_unfold. simpl.
  by destruct (_dir ctx !! "dist.config").
Qed.

(** C2, as amended: for every name under which the table of configuration
    files reads [null] or [undefined] (nothing registered and no inherited
    member; the prototype of the table being the one it was created with,
    a plain object or [null]), in a context where the alias [dist.config]
    is bound, [getConfigFilePath] returns the join of that directory and the name and
    leaves a null placeholder under the name; before and after it,
    [getConfigFileDefinition] fails with the file-not-defined error, and so
    does [getConfigFileContents]. *)
Theorem getConfigFilePath_undefined ctx name (dist : string) :
  plain_prototype (_config_files_proto ctx) = true →
  nullish (file_member ctx name) = true →
  _dir ctx !! "dist.config" = Some dist →
  ∃ ctx',
    getConfigFilePath name ctx = (ctx', Ok (path_join dist name)) ∧
    _config_files ctx' !! name = Some VNull ∧
    Forall (λ c,
      (getConfigFileDefinition name c).2
        = Throw (ConfigFileNotDefined name) ∧
      (getConfigFileContents name c).2
        = Throw (ConfigFileNotDefined name)) [ctx; ctx'].
Proof.
  intros _ Hnull Hdir. eexists. split; [|split].
  - rewrite getConfigFilePath_unfold, Hdir. reflexivity.
  - rewrite placeholder_files, file_member_mark_used, Hnull.
    apply lookup_insert_eq.
  - assert (truthy (file_member (placeholder name (mark_used name ctx))
                      name) = false) as Hp.
    { unfold file_member at 1.
      rewrite placeholder_files, file_member_mark_used, Hnull.
      by rewrite lookup_insert_eq. }
    pose proof (nullish_not_truthy _ Hnull) as Hf.
    repeat constructor;
      rewrite ?getConfigFileDefinition_unfold, ?getConfigFileContents_unfold;
      cbv zeta; by rewrite ?Hp, ?Hf.
Qed.

(** C9: for a name that [Object.prototype] holds, the code stores no
    placeholder although no file is defined under it.  On a new context
    without directories [getConfigFilePath("toString")] fails and has
    marked the name used, but the table is as empty as before: the test
    [== null] saw the inherited function. *)
Theorem getConfigFilePath_inherited_no_placeholder :
  let ctx := new ∅ ∅ in
  _config_files ctx !! "toString" = None ∧
  (getConfigFilePath "toString" ctx).2
  = Throw (DirectoryNotDefined "dist.config") ∧
  getUsedConfigFiles (getConfigFilePath "toString" ctx).1 = ["toString"] ∧
  _config_files (getConfigFilePath "toString" ctx).1 = ∅.
Proof. repeat split. Qed.

(** X28: [getConfigFilePath(name)] marks the name as used and stores the
    placeholder before it resolves [dist.config]; when that alias is not
    bound the call fails with the directory error and the context keeps
    both writes: the name is among the used files, and the table holds
    the null placeholder under the name if it read [null] or [undefined]
    there, and is unchanged otherwise (the prototype of the table being the
    one it was created with, a plain object or [null]). *)
Theorem getConfigFilePath_failure ctx name :
  plain_prototype (_config_files_proto ctx) = true →
  _dir ctx !! "dist.config" = None →
  ∃ ctx',
    getConfigFilePath name ctx
    = (ctx', Throw (DirectoryNotDefined "dist.config")) ∧
    name ∈ getUsedConfigFiles ctx' ∧
    _config_files ctx'
    = (if nullish (file_member ctx name)
       then <[name := VNull]> (_config_files ctx)
       else _config_files ctx).
Proof.
  intros _ Hdir. eexists. split; [|split].
  - rewrite getConfigFilePath_unfold, Hdir. reflexivity.
  - unfold getUsedConfigFiles. rewrite placeholder_usedFiles.
    unfold mark_used, set_add. simpl.
    case_decide; [done|]. apply elem_of_app. right. by left.
  - by rewrite placeholder_files, file_member_mark_used.
Qed.

(** C10: under the name [__proto__] the code does not throw for a falsy
    definition, and under a name that [Object.prototype] holds it does not
    throw for a name that was never registered:
    [setConfigFile("__proto__", "")] stores nothing and
    [getConfigFileDefinition("__proto__")] returns [Object.prototype];
    [getConfigFileDefinition("constructor")] on a new context returns the
    inherited function. *)
Theorem getConfigFileDefinition_inherited_member :
  truthy (VStr "") = false ∧
  _config_files (setConfigFile "__proto__" (VStr "") (new ∅ ∅)) = ∅ ∧
  (getConfigFileDefinition "__proto__"
     (setConfigFile "__proto__" (VStr "") (new ∅ ∅))).2
  = Ok (VObj ∅) ∧
  (getConfigFileDefinition "constructor" (new ∅ ∅)).2 = Ok (VFun 0).
Proof. repeat split. Qed.

(** *** The used files *)

Lemma elem_of_set_add (x y : string) (l : list string) :
  y ∈ set_add x l ↔ y = x ∨ y ∈ l.
Proof.
  unfold set_add. case_decide as Hx.
  - split; [by right|]. by intros [->|].
  - rewrite elem_of_app, list_elem_of_singleton. tauto.
Qed.

Lemma NoDup_set_add (x : string) (l : list string) :
  NoDup l → NoDup (set_add x l).
Proof.
  intros Hl. unfold set_add. case_decide as Hx; [done|].
  apply NoDup_app. split; [done|]. split; [|apply NoDup_singleton].
  intros y Hy ->%list_elem_of_singleton. done.
Qed.

Lemma set_add_prefix (x : string) (l : list string) :
  l `prefix_of` set_add x l.
Proof.
  unfold set_add. case_decide; [done|]. by apply prefix_app_r.
Qed.

Lemma set_add_idemp (x : string) (l : list string) :
  set_add x (set_add x l) = set_add x l.
Proof.
  unfold set_add at 1. case_decide as Hx; [done|].
  exfalso. apply Hx, elem_of_set_add. by left.
Qed.

#[local] Abbreviation perform :=
  (perform path_join Promise getFileContents).
#[local] Abbreviation perform_all :=
  (perform_all path_join Promise getFileContents).

(** A call adds the name it passes to an accessor, and nothing else. *)
Lemma perform_usedFiles ctx (c : Call) :
  _usedFiles (perform ctx c)
  = match accessed c with
    | Some name => set_add name (_usedFiles ctx)
    | None => _usedFiles ctx
    end.
Proof.
  destruct c as [args|alias path|obj|name d|name|name|name]; simpl;
    try reflexivity.
  - unfold setDirectory. by destruct (_ && _).
  - unfold setConfigFile, file_assign.
    destruct (_ && _); [|done]. by destruct (object_or_null d).
  - rewrite getConfigFilePath_unfold. simpl.
    by rewrite placeholder_usedFiles.
  - by rewrite getConfigFileDefinition_unfold.
  - rewrite getConfigFileContents_unfold. cbv zeta.
    destruct (truthy (file_member ctx name)); simpl;
      by rewrite ?placeholder_usedFiles; simpl; rewrite !set_add_idemp.
Qed.

Lemma perform_all_usedFiles (cs : list Call) :
  ∀ ctx,
    _usedFiles (perform_all ctx cs)
    = foldl (λ used c, from_option (λ name, set_add name used) used
                         (accessed c)) (_usedFiles ctx) cs.
Proof.
  induction cs as [|c cs IH]; intros ctx; [done|].
  unfold Calls.perform_all in *. cbn [foldl]. rewrite IH, perform_usedFiles.
  by destruct (accessed c).
Qed.

Lemma perform_all_snoc ctx (cs : list Call) (c : Call) :
  perform_all ctx (cs ++ [c]) = perform (perform_all ctx cs) c.
Proof. unfold Calls.perform_all. by rewrite foldl_app. Qed.

Lemma perform_all_prefix (cs : list Call) :
  ∀ ctx, _usedFiles ctx `prefix_of` _usedFiles (perform_all ctx cs).
Proof.
  induction cs as [|c cs IH]; intros ctx; [done|].
  simpl. etrans; [|apply IH].
  rewrite perform_usedFiles. destruct (accessed c); [|done].
  apply set_add_prefix.
Qed.

(** C4: after any sequence of calls on a new context, [getUsedConfigFiles()]
    lists, each once, exactly the names that were passed to
    [getConfigFilePath], [getConfigFileDefinition] or
    [getConfigFileContents], whether the call returned or threw; further
    calls only extend the list, so no name is ever removed.  After
    [getConfigFilePath("a")], [getConfigFileDefinition("b")] and
    [getConfigFileContents("b")], with [b] registered, it is
    [["a"; "b"]]. *)
Theorem getUsedConfigFiles_spec (env dir : gmap string string)
    (cs more : list Call) (contents : value) :
  let ctx := perform_all (new env dir) cs in
  NoDup (getUsedConfigFiles ctx) ∧
  (∀ name, name ∈ getUsedConfigFiles ctx ↔ name ∈ omap accessed cs) ∧
  getUsedConfigFiles ctx
    `prefix_of` getUsedConfigFiles (perform_all ctx more) ∧
  getUsedConfigFiles
    (perform_all (new env dir)
       [CallSetConfigFile "b" contents;
        CallGetConfigFilePath "a";
        CallGetConfigFileDefinition "b";
        CallGetConfigFileContents "b"])
  = ["a"; "b"].
Proof.
  intros ctx. unfold getUsedConfigFiles.
  split; [|split; [|split]].
  - unfold ctx. induction cs as [|c cs IH] using rev_ind.
    + apply NoDup_nil_2.
    + rewrite perform_all_snoc, perform_usedFiles.
      destruct (accessed c); [by apply NoDup_set_add|done].
  - unfold ctx. induction cs as [|c cs IH] using rev_ind; intros name.
    + simpl. split; by intros ?%elem_of_nil.
    + rewrite perform_all_snoc, perform_usedFiles, omap_app, elem_of_app.
      simpl. destruct (accessed c) as [n|]; simpl.
      * rewrite elem_of_set_add, IH, list_elem_of_singleton. tauto.
      * rewrite IH. split; [by left|]. by intros [|?%elem_of_nil].
  - apply perform_all_prefix.
  - rewrite perform_all_usedFiles. reflexivity.
Qed.

End Registry.

(** ** Spawning a process *)

Section Exec.

Implicit Types (ctx : RuntimeContext) (options : gmap string value).

(** An object that is its own clone has no key that names a member of
    [Object.prototype], and its values are their own clones. *)
Lemma clone_fixed_lookup (custom : option ArrayMerge)
    (m : gmap string value) (k : string) (v : value) :
  clone custom (VObj m) = VObj m → m !! k = Some v →
  inherited_name k = false ∧ clone custom v = v.
Proof.
  cbn [clone]. intros [= Hm] Hk.
  apply (f_equal (λ x : gmap string value, x !! k)) in Hm.
  rewrite map_lookup_imap, Hk in Hm. cbn [mbind option_bind] in Hm.
  destruct (inherited_name k); [discriminate|]. by injection Hm as ->.
Qed.

(** Merging into a primitive yields the source, when it is its own
    clone. *)
Lemma deepmerge_primitive (custom : option ArrayMerge)
    (target source : value) :
  primitive target = true → isMergeableObject source = true →
  clone custom source = source →
  deepmerge custom target source = source.
Proof.
  intros Ht Hs Hfix. destruct source as [| | | | | |l|m]; try discriminate.
  - rewrite <- Hfix at 2. by destruct target.
  - assert (deepmerge custom target (VObj m) = VObj (clone custom <$> m))
      as ->.
    { destruct target; try discriminate; cbn [deepmerge]; f_equal;
        apply map_eq; intros k;
        rewrite lookup_union, map_lookup_imap, !lookup_fmap;
        unfold target_props; simpl; rewrite lookup_empty;
        by destruct (m !! k). }
    f_equal. apply map_eq. intros k. rewrite lookup_fmap.
    destruct (m !! k) as [v|] eqn:Hk; [|done]. simpl. f_equal.
    by eapply clone_fixed_lookup.
Qed.









End Exec.

(** ** The stages of an action *)

Section Lifecycle.

Implicit Types (ctx : RuntimeContext) (a : Action).

(** C7: when the [run] stage of an action fails, [postRun] is not invoked,
    nothing else runs after [run], the failure reaches the command handler,
    which logs it and exits the process with status 1. *)
Theorem run_failure_skips_postRun a (actionName : string) ctx ctx1 ctx2
    (e : Error) :
  before_run a ctx = Some ctx1 →
  run a ctx1 = (ctx2, Throw e) →
  let trace := (call_action a actionName ctx).2 in
  invokeAction a ctx
  = (ctx2, invoked_before_run a ++ [Invoked Run], Failed e) ∧
  trace
  = invoked_before_run a ++ [Invoked Run; LogError actionName e; Exit 1] ∧
  (Invoked PostRun ∉ trace) ∧
  exit_status trace = 1%Z ∧
  exit_status trace ≠ 0%Z.
Proof.
  intros Hpre Hrun trace.
  assert (invokeAction a ctx
          = (ctx2, invoked_before_run a ++ [Invoked Run], Failed e))
    as Hinv.
  { unfold invokeAction, before_run, invoked_before_run in *. simpl.
    destruct (preRun a) as [h|]; simpl.
    - destruct (h ctx) as [c [[]|e']]; [|discriminate].
      injection Hpre as ->. by rewrite Hrun.
    - injection Hpre as ->. by rewrite Hrun. }
  assert (trace = invoked_before_run a ++
                  [Invoked Run; LogError actionName e; Exit 1]) as Htrace.
  { unfold trace, call_action. rewrite Hinv. simpl.
    by rewrite <- app_assoc. }
  split; [done|]. split; [done|]. rewrite Htrace.
  unfold invoked_before_run.
  destruct (preRun a); simpl; repeat split; try done.
  - intros Hin. repeat (apply elem_of_cons in Hin as [?|Hin]; [done|]).
    by apply elem_of_nil in Hin.
  - intros Hin. repeat (apply elem_of_cons in Hin as [?|Hin]; [done|]).
    by apply elem_of_nil in Hin.
Qed.

(** An action that registers a file in [preRun] and whose [run] rejects. *)
Lemma run_failure_skips_postRun_witness :
  let a := mkAction (Some (modify (setConfigFile "a.json" (VStr "{}"))))
             (throw (Rejected "boom")) (Some (mret tt)) in
  (call_action a "build" (new ∅ ∅)).2
  = [Invoked PreRun; Invoked Run; LogError "build" (Rejected "boom");
     Exit 1].
Proof.
  intros a.
  exact (proj1 (proj2 (run_failure_skips_postRun a "build" (new ∅ ∅)
                         (setConfigFile "a.json" (VStr "{}") (new ∅ ∅))
                         (setConfigFile "a.json" (VStr "{}") (new ∅ ∅))
                         (Rejected "boom") eq_refl eq_refl))).
Defined.

End Lifecycle.

(** ** The registry on concrete contexts *)

Section RegistryExamples.

Let contents_of (_ : RuntimeContext) (definition : value) (_ : string)
  : value := definition.

(** An undefined name in a context where [dist.config] is bound. *)
Lemma getConfigFilePath_undefined_witness :
  let ctx := new ∅ {["dist.config" := "/work/.config"]} in
  ∃ ctx',
    getConfigFilePath join_plain "foo" ctx = (ctx', Ok "/work/.config/foo") ∧
    _config_files ctx' !! "foo" = Some VNull ∧
    Forall (λ c,
      (getConfigFileDefinition "foo" c).2
        = Throw (ConfigFileNotDefined "foo") ∧
      (getConfigFileContents join_plain value contents_of "foo" c).2
        = Throw (ConfigFileNotDefined "foo")) [ctx; ctx'].
Proof.
  intros ctx.
  exact (getConfigFilePath_undefined join_plain value contents_of ctx "foo"
           "/work/.config" eq_refl eq_refl eq_refl).
Defined.

(** C2 as first stated fails where [dist.config] is not bound: the name has
    no definition and [getConfigFilePath] throws. *)
Lemma getConfigFilePath_unbound_fails :
  let ctx := new ∅ ∅ in
  _config_files ctx !! "foo" = None ∧
  (getConfigFilePath join_plain "foo" ctx).2
  = Throw (DirectoryNotDefined "dist.config") ∧
  is_ok (getConfigFilePath join_plain "foo" ctx).2 = false.
Proof. repeat split. Qed.

(** A call that fails in a new context without directories. *)
Lemma getConfigFilePath_failure_witness :
  let ctx := new ∅ ∅ in
  ∃ ctx',
    getConfigFilePath join_plain "foo" ctx
    = (ctx', Throw (DirectoryNotDefined "dist.config")) ∧
    "foo" ∈ getUsedConfigFiles ctx' ∧
    _config_files ctx' = <["foo" := VNull]> ∅.
Proof.
  intros ctx.
  exact (getConfigFilePath_failure join_plain ctx "foo" eq_refl eq_refl).
Defined.

End RegistryExamples.

(** * Further properties of the code *)

(** ** The mode *)

Section ModeFacts.

Implicit Types (ctx : RuntimeContext).

(** X1: the context is in development mode exactly when [NODE_ENV] is
    missing, empty or [development], in production mode exactly when it is
    [production], and never in both; any other value is neither. *)
Theorem mode_of_environment ctx :
  (isDevelop ctx = true ↔
     _env ctx !! "NODE_ENV" = None ∨ _env ctx !! "NODE_ENV" = Some "" ∨
     _env ctx !! "NODE_ENV" = Some "development") ∧
  (isProduction ctx = true ↔ _env ctx !! "NODE_ENV" = Some "production") ∧
  isDevelop ctx && isProduction ctx = false.
Proof.
  unfold isDevelop, isProduction, getMode.
  destruct (_env ctx !! "NODE_ENV") as [mode|].
  - destruct (String.eqb_spec mode "") as [Hempty|Hempty];
      destruct (String.eqb_spec mode "development") as [Hdev|Hdev];
      destruct (String.eqb_spec mode "production") as [Hprod|Hprod];
      subst; simpl; repeat split; intros; try discriminate; try congruence;
      try (destruct_or!; congruence); auto.
  - simpl. repeat split; intros; try discriminate; auto.
Qed.

End ModeFacts.

(** ** Layers of configuration *)

Section Layers.

Implicit Types (ctx : RuntimeContext) (obj : gmap string value).




Lemma foldl_updateOptions_config (objs : list (gmap string value)) :
  ∀ ctx,
    _config (foldl (λ c obj, updateOptions obj c) ctx objs)
    = foldl (deepmerge (Some overwriteMerge)) (_config ctx) (VObj <$> objs).
Proof.
  induction objs as [|obj objs IH]; intros ctx; [done|].
  cbn [foldl fmap list_fmap]. by rewrite IH.
Qed.

(** X3: the configuration that successive [updateOptions] calls build on a
    new context is [util.merge] of their partials, in the order of the
    calls. *)
Theorem updateOptions_is_util_merge (env dir : gmap string string)
    (objs : list (gmap string value)) :
  _config (foldl (λ c obj, updateOptions obj c) (new env dir) objs)
  = util_merge (VObj <$> objs).
Proof. by rewrite foldl_updateOptions_config. Qed.

(** On a configuration object, a key that names no member of
    [Object.prototype] is never unsafe. *)
Lemma own_key_safe (tm : gmap string value) (k : string) :
  inherited_name k = false → propertyIsUnsafe (VObj tm) k = false.
Proof.
  intros Hk. unfold propertyIsUnsafe.
  cbn [propertyIsOnObject hasOwnEnumerable].
  by rewrite Hk, orb_false_r, andb_negb_r.
Qed.

(** X4: [updateOptions] on a configuration object decides a key of the
    partial that names no member of [Object.prototype], whose value is its
    own clone and is not laid over a function, by the two values: two
    arrays are concatenated, two plain objects are merged in the same way
    one level down, and in every other case (a scalar on either side, an
    array against an object, a new key) the value of the partial replaces
    what was there. *)
Theorem updateOptions_key ctx obj (tm : gmap string value) (k : string)
    (sv : value) :
  _config ctx = VObj tm →
  obj !! k = Some sv →
  inherited_name k = false →
  clone (Some overwriteMerge) sv = sv →
  (∀ tag, tm !! k ≠ Some (VFun tag)) →
  get_path [k] (_config (updateOptions obj ctx))
  = Some (match sv, tm !! k with
          | VArr sa, Some (VArr ta) => VArr (ta ++ sa)
          | VObj so, Some (VObj to) =>
              _config (updateOptions so (set_config (VObj to) ctx))
          | _, _ => sv
          end).
Proof.
  intros Hc Hk Hin Hfix Hfun. rewrite updateOptions_config, Hc.
  destruct (deepmerge_lookup (Some overwriteMerge) (VObj tm) obj eq_refl)
    as (m & -> & Hm).
  cbn [get_path]. rewrite Hm, Hk, (own_key_safe tm k Hin).
  cbn [mbind option_bind get_path]. f_equal.
  change (target_props (VObj tm)) with tm.
  destruct (tm !! k) as [tv|] eqn:Ht.
  - destruct sv as [| | | | | |sa|so]; try reflexivity.
    cbn [isMergeableObject].
    destruct tv as [| | | | |tag| |]; try reflexivity;
      try (by apply deepmerge_primitive).
    + by destruct (Hfun tag).
    + exact Hfix.
  - rewrite Hfix. by destruct sv.
Qed.

(** A scalar over an object, an object over an object. *)
Lemma updateOptions_key_witness :
  let ctx :=
    updateOptions {["output" := VObj {["path" := VStr "dist"]}]}
      (new ∅ ∅) in
  get_path ["output"]
    (_config (updateOptions {["output" := VStr "build"]} ctx))
  = Some (VStr "build") ∧
  get_path ["output"]
    (_config (updateOptions
                {["output" := VObj {["clean" := VBool true]}]} ctx))
  = Some (VObj {["clean" := VBool true; "path" := VStr "dist"]}).
Proof.
  intros ctx. split.
  - refine (updateOptions_key ctx {["output" := VStr "build"]}
              {["output" := VObj {["path" := VStr "dist"]}]} "output"
              (VStr "build") _ _ _ _ _); try reflexivity.
    intros tag. vm_compute. discriminate.
  - etrans.
    + refine (updateOptions_key ctx
                {["output" := VObj {["clean" := VBool true]}]}
                {["output" := VObj {["path" := VStr "dist"]}]} "output"
                (VObj {["clean" := VBool true]}) _ _ _ _ _);
        try reflexivity.
      intros tag. vm_compute. discriminate.
    + vm_compute. reflexivity.
Defined.

(** X5: after [updateOptions] the configuration is an object whose keys are
    those it had and those of the partial that name no member of
    [Object.prototype]; a key that the partial does not have keeps a clone
    of its value. *)
Theorem updateOptions_keys ctx obj (tm : gmap string value) :
  _config ctx = VObj tm →
  ∃ m, _config (updateOptions obj ctx) = VObj m ∧
       dom m
       = dom tm ∪ filter (λ k, inherited_name k = false) (dom obj) ∧
       ∀ k, obj !! k = None →
            m !! k = clone (Some overwriteMerge) <$> tm !! k.
Proof.
  intros Hc. rewrite updateOptions_config, Hc.
  destruct (deepmerge_lookup (Some overwriteMerge) (VObj tm) obj eq_refl)
    as (m & -> & Hm).
  exists m. split; [done|]. split.
  - apply set_eq. intros k.
    rewrite elem_of_union, elem_of_filter, !elem_of_dom, Hm.
    change (target_props (VObj tm)) with tm.
    unfold propertyIsUnsafe. cbn [propertyIsOnObject hasOwnEnumerable].
    destruct (obj !! k) as [sv|], (tm !! k) as [tv|] eqn:Ht,
      (inherited_name k) eqn:Hin;
      rewrite ?bool_decide_eq_true_2 by eauto;
      rewrite ?bool_decide_eq_false_2 by (by intros [? ?]);
      simpl; rewrite ?is_Some_alt; intuition (eauto || discriminate).
  - intros k Hk. by rewrite Hm, Hk.
Qed.

Lemma updateOptions_keys_witness :
  ∃ m, _config
         (updateOptions {["debug" := VBool true]}
            (updateOptions {["mode" := VStr "dev"]} (new ∅ ∅)))
       = VObj m ∧
       dom m = dom ({["mode" := VStr "dev"]} : gmap string value)
               ∪ filter (λ k, inherited_name k = false)
                   (dom ({["debug" := VBool true]} : gmap string value)) ∧
       ∀ k, ({["debug" := VBool true]} : gmap string value) !! k = None →
            m !! k
            = clone (Some overwriteMerge)
                <$> ({["mode" := VStr "dev"]} : gmap string value) !! k.
Proof.
  exact (updateOptions_keys
           (updateOptions {["mode" := VStr "dev"]} (new ∅ ∅))
           {["debug" := VBool true]} {["mode" := VStr "dev"]} eq_refl).
Defined.

(** X6: with a truthy default, [getOption] never returns a falsy value,
    whatever the configuration holds. *)
Theorem getOption_truthy_default ctx (name : string) (defaults : value) :
  truthy defaults = true →
  truthy (getOption name defaults ctx) = true.
Proof.
  intros Hd. unfold getOption, or_else.
  destruct (typeof_object _ && truthy _ && negb _); [done|].
  by destruct (truthy (get_prop (_config ctx) name)) eqn:Hv.
Qed.

Lemma getOption_truthy_default_witness :
  truthy (getOption "port" (VNum 8080)
            (updateOptions {["port" := VNum 0]} (new ∅ ∅))) = true.
Proof.
  exact (getOption_truthy_default
           (updateOptions {["port" := VNum 0]} (new ∅ ∅)) "port"
           (VNum 8080) eq_refl).
Defined.

(** X7: after [updateOptions] with a scalar under a key that names no
    member of [Object.prototype], [getOption] of that key is the scalar
    when it is truthy, whatever an earlier layer held there, and the
    default when it is falsy: a layer cannot turn an option to [false],
    [0] or [""] against a default. *)
Theorem getOption_after_updateOptions ctx obj (tm : gmap string value)
    (k : string) (v defaults : value) :
  _config ctx = VObj tm →
  obj !! k = Some v →
  isMergeableObject v = false →
  inherited_name k = false →
  getOption k defaults (updateOptions obj ctx)
  = if truthy v then v else defaults.
Proof.
  intros Hc Hk Hv Hin. unfold getOption. rewrite updateOptions_config, Hc.
  destruct (deepmerge_lookup (Some overwriteMerge) (VObj tm) obj eq_refl)
    as (m & -> & Hm).
  cbn [get_prop]. unfold member.
  rewrite Hm, Hk, (own_key_safe tm k Hin), Hv, (clone_scalar _ v Hv).
  assert (match target_props (VObj tm) !! k with
          | Some _ => v | None => v end = v) as ->.
  { by destruct (target_props (VObj tm) !! k). }
  by destruct v.
Qed.

Lemma getOption_after_updateOptions_witness :
  getOption "debug" (VBool true)
    (updateOptions {["debug" := VBool false]}
       (updateOptions {["debug" := VBool true]} (new ∅ ∅)))
  = VBool true.
Proof.
  exact (getOption_after_updateOptions
           (updateOptions {["debug" := VBool true]} (new ∅ ∅))
           {["debug" := VBool false]} {["debug" := VBool true]}
           "debug" (VBool false) (VBool true) eq_refl eq_refl eq_refl
           eq_refl).
Defined.

End Layers.

(** ** Arguments *)

Section Arguments.

Implicit Types (ctx : RuntimeContext) (args : gmap string value).

(** X8: after [updateArgs(args)], [getArg] of a key of [args] is the value
    given there, or the default when that value is [null] or [undefined],
    whatever was stored before; a key that [args] does not have reads as
    it did. *)
Theorem getArg_after_updateArgs ctx args (name : string) (d : value) :
  getArg name d (updateArgs args ctx)
  = match args !! name with
    | Some v => if nullish v then d else v
    | None => getArg name d ctx
    end.
Proof.
  unfold getArg, updateArgs, assign, member. simpl. rewrite lookup_union.
  destruct (args !! name) as [v|], (_args ctx !! name); simpl; done.
Qed.

(** X9: two [updateArgs] calls amount to one call with the second bag laid
    over the first. *)
Theorem updateArgs_twice ctx (first second : gmap string value) :
  updateArgs second (updateArgs first ctx)
  = updateArgs (second ∪ first) ctx.
Proof.
  unfold updateArgs, assign, set_args. simpl. f_equal.
  by rewrite (assoc_L (∪)).
Qed.

End Arguments.

(** ** The registry, call by call *)

Section RegistryCalls.

Context (path_join : string → string → string) (Promise : Type)
  (getFileContents : RuntimeContext → value → string → Promise).

Implicit Types (ctx : RuntimeContext) (name : string).

#[local] Abbreviation getConfigFilePath := (getConfigFilePath path_join).
#[local] Abbreviation getConfigFileContents :=
  (getConfigFileContents path_join Promise getFileContents).
#[local] Abbreviation perform :=
  (perform path_join Promise getFileContents).
#[local] Abbreviation perform_all :=
  (perform_all path_join Promise getFileContents).

(** An assignment to the table writes the own property or, under
    [__proto__], leaves the own properties alone. *)
Lemma file_assign_files name (v : value) ctx :
  _config_files (file_assign name v ctx) = _config_files ctx ∨
  _config_files (file_assign name v ctx)
  = <[name := v]> (_config_files ctx).
Proof.
  unfold file_assign.
  destruct (String.eqb name "__proto__" && _ && _); [|by right].
  left. by destruct (object_or_null v).
Qed.

Lemma file_assign_other name (v : value) ctx :
  name ≠ "__proto__" →
  file_assign name v ctx
  = set_config_files (<[name := v]> (_config_files ctx)) ctx.
Proof.
  intros Hne. unfold file_assign.
  by destruct (String.eqb_spec name "__proto__").
Qed.

Lemma setDirectory_fields (alias path : string) ctx :
  _env (setDirectory alias path ctx) = _env ctx ∧
  _config_files (setDirectory alias path ctx) = _config_files ctx ∧
  _config_files_proto (setDirectory alias path ctx)
  = _config_files_proto ctx ∧
  ∀ other, other ≠ alias →
    _dir (setDirectory alias path ctx) !! other = _dir ctx !! other.
Proof.
  unfold setDirectory.
  destruct (String.eqb alias "__proto__" && _); [done|].
  repeat split. intros other Hne. simpl. by rewrite lookup_insert_ne.
Qed.

(** The configuration files after a call. *)
Lemma perform_files ctx (c : Call) :
  _config_files (perform ctx c)
  = match c with
    | CallSetConfigFile name contents =>
        _config_files (file_assign name contents ctx)
    | CallGetConfigFilePath name =>
        if nullish (file_member ctx name)
        then <[name := VNull]> (_config_files ctx)
        else _config_files ctx
    | _ => _config_files ctx
    end.
Proof.
  destruct c as [|alias path| | |name|name|name]; simpl; try reflexivity.
  - apply setDirectory_fields.
  - rewrite getConfigFilePath_unfold. simpl. by rewrite placeholder_files.
  - by rewrite getConfigFileDefinition_unfold.
  - rewrite getConfigFileContents_unfold. simpl.
    destruct (truthy (file_member ctx name)) eqn:Ht; simpl; [|done].
    rewrite placeholder_files, !file_member_mark_used.
    by rewrite (truthy_not_nullish _ Ht).
Qed.

(** The prototype of the table after a call. *)
Lemma perform_proto ctx (c : Call) :
  _config_files_proto (perform ctx c)
  = match c with
    | CallSetConfigFile name contents =>
        _config_files_proto (file_assign name contents ctx)
    | _ => _config_files_proto ctx
    end.
Proof.
  destruct c as [|alias path| | |name|name|name]; simpl; try reflexivity.
  - apply setDirectory_fields.
  - rewrite getConfigFilePath_unfold. simpl.
    by destruct (placeholder_fields name (mark_used name ctx))
      as (_ & _ & _ & _ & -> & _).
  - by rewrite getConfigFileDefinition_unfold.
  - rewrite getConfigFileContents_unfold. simpl.
    destruct (truthy (file_member ctx name)); simpl; [|done].
    by destruct (placeholder_fields name
                   (mark_used name (mark_used name (mark_used name ctx))))
      as (_ & _ & _ & _ & -> & _).
Qed.

(** The other fields after a call. *)
Lemma perform_fields ctx (c : Call) :
  _env (perform ctx c) = _env ctx ∧
  _dir (perform ctx c)
  = match c with
    | CallSetDirectory alias path => _dir (setDirectory alias path ctx)
    | _ => _dir ctx
    end.
Proof.
  destruct c as [|alias path| |name d|name|name|name]; simpl; try done.
  - split; [apply setDirectory_fields|done].
  - unfold setConfigFile, file_assign.
    destruct (String.eqb name "__proto__" && _ && _); [|done].
    by destruct (object_or_null d).
  - rewrite getConfigFilePath_unfold. simpl.
    by destruct (placeholder_fields name (mark_used name ctx))
      as (_ & -> & -> & _).
  - by rewrite getConfigFileDefinition_unfold.
  - rewrite getConfigFileContents_unfold. simpl.
    destruct (truthy (file_member ctx name)); simpl; [|done].
    by destruct (placeholder_fields name
                   (mark_used name (mark_used name (mark_used name ctx))))
      as (_ & -> & -> & _).
Qed.

(** X10: the mode of a context never changes: no method writes the
    environment it was built with. *)
Theorem mode_is_fixed ctx (cs : list Call) :
  _env (perform_all ctx cs) = _env ctx ∧
  getMode (perform_all ctx cs) = getMode ctx ∧
  isDevelop (perform_all ctx cs) = isDevelop ctx ∧
  isProduction (perform_all ctx cs) = isProduction ctx.
Proof.
  assert (_env (perform_all ctx cs) = _env ctx) as Henv.
  { revert ctx. induction cs as [|c cs IH]; intros ctx; [done|].
    unfold Calls.perform_all in *. cbn [foldl]. rewrite IH.
    apply perform_fields. }
  unfold isDevelop, isProduction, getMode. by rewrite Henv.
Qed.

(** X11: only [setDirectory] changes what [getDirectory] answers: after any
    calls among which none sets [alias], [getDirectory(alias)] returns or
    throws what it did before. *)
Theorem directory_kept ctx (cs : list Call) (alias : string) :
  Forall (λ c, keeps_directory alias c = true) cs →
  (getDirectory alias (perform_all ctx cs)).2 = (getDirectory alias ctx).2.
Proof.
  intros Hcs.
  assert (_dir (perform_all ctx cs) !! alias = _dir ctx !! alias) as Hdir.
  { revert ctx. induction Hcs as [|c cs Hc _ IH]; intros ctx; [done|].
    unfold Calls.perform_all in *. cbn [foldl]. rewrite IH.
    destruct (perform_fields ctx c) as [_ ->].
    destruct c as [|alias' path| | | | |]; try done.
    simpl in Hc. apply negb_true_iff, String.eqb_neq in Hc.
    by apply setDirectory_fields. }
  rewrite !getDirectory_unfold. cbn [snd]. unfold dir_member.
  by rewrite Hdir.
Qed.

(** X12: a registered definition stays until [setConfigFile] replaces it:
    the placeholder of the accessors never overwrites a definition that is
    not [null] or [undefined], falsy ones included. *)
Theorem definition_kept ctx (cs : list Call) name :
  nullish (get (_config_files ctx) name) = false →
  Forall (λ c, keeps_definition name c = true) cs →
  get (_config_files (perform_all ctx cs)) name
  = get (_config_files ctx) name.
Proof.
  intros Hdef Hcs. revert ctx Hdef.
  induction Hcs as [|c cs Hc _ IH]; intros ctx Hdef; [done|].
  unfold Calls.perform_all in *. cbn [foldl].
  assert (get (_config_files (perform ctx c)) name
          = get (_config_files ctx) name) as Hstep.
  { rewrite perform_files.
    destruct c as [| | |name' d|name'| |]; try done.
    - simpl in Hc. apply negb_true_iff, String.eqb_neq in Hc.
      destruct (file_assign_files name' d ctx) as [->| ->]; [done|].
      unfold get. by rewrite lookup_insert_ne.
    - destruct (nullish (file_member ctx name')) eqn:Hn; [|done].
      destruct (decide (name' = name)) as [->|Hne].
      + rewrite (file_member_own _ _ Hdef) in Hn. congruence.
      + unfold get. by rewrite lookup_insert_ne. }
  rewrite IH; [done|]. by rewrite Hstep.
Qed.

(** For a name that names no member of [Object.prototype], a table with
    the prototype it was created with reads its own entry. *)
Lemma file_member_plain name ctx :
  _config_files_proto ctx = None → inherited_name name = false →
  file_member ctx name = get (_config_files ctx) name.
Proof.
  intros Hp Hn. unfold file_member, get. rewrite Hp. simpl.
  by rewrite (inherited_name_member _ Hn).
Qed.

(** X13: no call removes an entry of the configuration files; and where
    the table has the prototype it was created with and no call registers
    under [__proto__], a name that names no member of [Object.prototype]
    has an entry once it was passed to [getConfigFilePath]. *)
Theorem files_only_grow ctx (cs : list Call) name :
  dom (_config_files ctx) ⊆ dom (_config_files (perform_all ctx cs)) ∧
  (_config_files_proto ctx = None →
   Forall (λ c, keeps_definition "__proto__" c = true) cs →
   inherited_name name = false →
   CallGetConfigFilePath name ∈ cs →
   name ∈ dom (_config_files (perform_all ctx cs))).
Proof.
  assert (∀ c ctx0,
    dom (_config_files ctx0) ⊆ dom (_config_files (perform ctx0 c)))
    as Hstep.
  { intros c ctx0. rewrite perform_files.
    destruct c as [| | |n d|n| |]; try done.
    - destruct (file_assign_files n d ctx0) as [->| ->]; [done|].
      rewrite dom_insert_L. set_solver.
    - destruct (nullish _); [|done]. rewrite dom_insert_L. set_solver. }
  assert (∀ cs0 ctx0,
    dom (_config_files ctx0) ⊆ dom (_config_files (perform_all ctx0 cs0)))
    as Hall.
  { induction cs0 as [|c cs0 IH]; intros ctx0; [done|].
    unfold Calls.perform_all in *. cbn [foldl].
    etrans; [apply Hstep|apply IH]. }
  split; [apply Hall|].
  intros Hproto Hcs Hname. revert ctx Hproto.
  induction Hcs as [|c cs Hc Hcs IH]; intros ctx Hproto Hin.
  { by apply elem_of_nil in Hin. }
  unfold Calls.perform_all in *. cbn [foldl].
  apply elem_of_cons in Hin as [<-|Hin].
  - apply Hall. rewrite perform_files.
    rewrite (file_member_plain _ _ Hproto Hname).
    destruct (nullish (get (_config_files ctx) name)) eqn:Hn.
    + rewrite dom_insert_L. set_solver.
    + apply elem_of_dom. unfold get in Hn.
      destruct (_config_files ctx !! name); [done|discriminate].
  - apply IH; [|done]. rewrite perform_proto.
    destruct c as [| | |n d| | |]; try done.
    cbn [keeps_definition] in Hc.
    apply negb_true_iff, String.eqb_neq in Hc.
    by rewrite file_assign_other.
Qed.


(** X15: for a name with a truthy definition, where [dist.config] is
    bound, [getConfigFileContents] hands [getFileContents] the definition as
    registered and the path that [getConfigFilePath] returns; the
    configuration files are left as they were and the name is marked
    used. *)
Theorem getConfigFileContents_defined ctx name (dir : string) :
  truthy (get (_config_files ctx) name) = true →
  _dir ctx !! "dist.config" = Some dir →
  ∃ ctx',
    getConfigFileContents name ctx
    = (ctx', Ok (getFileContents ctx' (get (_config_files ctx) name)
                   (path_join dir name))) ∧
    (getConfigFilePath name ctx).2 = Ok (path_join dir name) ∧
    _config_files ctx' = _config_files ctx ∧
    _usedFiles ctx' = set_add name (_usedFiles ctx).
Proof.
  intros Hdef Hdir.
  pose proof (file_member_own name ctx (truthy_not_nullish _ Hdef)) as Hown.
  eexists. split; [|split; [|split]].
  - rewrite getConfigFileContents_unfold, Hown, Hdef, Hdir. reflexivity.
  - by rewrite getConfigFilePath_unfold, Hdir.
  - rewrite placeholder_files, !file_member_mark_used, Hown. simpl.
    by rewrite (truthy_not_nullish _ Hdef).
  - rewrite placeholder_usedFiles. simpl. by rewrite !set_add_idemp.
Qed.

(** X16: for a name under which the table reads nothing truthy (its
    prototype being the one it was created with, a plain object or
    [null]), [getConfigFileContents] fails with the file-not-defined error, also
    where [dist.config] is not bound; unlike [getConfigFilePath] it leaves
    no placeholder: only the used files change. *)
Theorem getConfigFileContents_undefined ctx name :
  plain_prototype (_config_files_proto ctx) = true →
  truthy (file_member ctx name) = false →
  getConfigFileContents name ctx
  = (mark_used name ctx, Throw (ConfigFileNotDefined name)) ∧
  _config_files (getConfigFileContents name ctx).1 = _config_files ctx.
Proof.
  intros _ Hdef. rewrite getConfigFileContents_unfold, Hdef. simpl.
  unfold mark_used. simpl. by rewrite set_add_idemp.
Qed.

Lemma placeholder_mark_used name ctx :
  placeholder name (mark_used name (placeholder name (mark_used name ctx)))
  = placeholder name (mark_used name ctx).
Proof.
  rewrite (placeholder_unfold name (mark_used name ctx)).
  rewrite file_member_mark_used.
  destruct (nullish (file_member ctx name)) eqn:Hn.
  - rewrite placeholder_unfold. unfold file_member at 1. simpl.
    rewrite lookup_insert_eq. simpl.
    unfold set_config_files, set_usedFiles, mark_used. simpl.
    by rewrite insert_insert_eq, set_add_idemp.
  - rewrite placeholder_unfold, !file_member_mark_used, Hn.
    unfold mark_used, set_usedFiles. simpl. by rewrite set_add_idemp.
Qed.

(** X17: [getConfigFilePath] is idempotent: a second call with the same
    name returns or throws the same and leaves the context of the first. *)
Theorem getConfigFilePath_idempotent ctx name :
  getConfigFilePath name (getConfigFilePath name ctx).1
  = getConfigFilePath name ctx.
Proof.
  rewrite !getConfigFilePath_unfold. simpl.
  rewrite placeholder_mark_used.
  by destruct (placeholder_fields name (mark_used name ctx))
    as (_ & _ & -> & _).
Qed.

End RegistryCalls.

(** ** Spawning without a project *)

Section ExecFailure.

Implicit Types (ctx : RuntimeContext).

(** X18: where the alias [project] is not bound, [exec] logs the command
    line, throws the directory error and hands nothing to [execa],
    whatever the options. *)
Theorem exec_without_project ctx (binary : string)
    (args : option (list string)) (options : option (gmap string value)) :
  _dir ctx !! "project" = None →
  exec binary args options ctx
  = ([LogDebug ("Invoking " +:+ binary +:+ " " +:+
                String.concat " " (default [] args))],
     Throw (DirectoryNotDefined "project")) ∧
  ∀ request, Spawn request ∉ (exec binary args options ctx).1.
Proof.
  intros Hdir.
  assert (exec binary args options ctx
          = ([LogDebug ("Invoking " +:+ binary +:+ " " +:+
                        String.concat " " (default [] args))],
             Throw (DirectoryNotDefined "project"))) as Hexec.
  { unfold exec, mbind, ctx_bind.
    rewrite (getDirectory_own "project" ctx eq_refl). cbn [fst snd].
    by rewrite Hdir. }
  split; [done|]. intros request. rewrite Hexec. simpl.
  by intros [?|?%elem_of_nil]%elem_of_cons.
Qed.

Lemma exec_without_project_witness :
  (exec "tsc" (Some ["-p"; "."]) None (new ∅ ∅)).2
  = Throw (DirectoryNotDefined "project").
Proof.
  exact (f_equal snd
           (proj1 (exec_without_project (new ∅ ∅) "tsc" (Some ["-p"; "."])
                     None eq_refl))).
Defined.

End ExecFailure.

(** ** The command line *)

Section CommandLine.

Implicit Types (ctx : RuntimeContext) (info : ActionInfo).

(** A scalar of the partial, under a key that names no member of
    [Object.prototype] or of a function, is stored under its key, whatever
    the configuration was. *)
Lemma updateOptions_scalar ctx (obj : gmap string value) (k : string)
    (v : value) :
  obj !! k = Some v → isMergeableObject v = false → safe_key k = true →
  get_prop (_config (updateOptions obj ctx)) k = v.
Proof.
  intros Hk Hv Hsafe. rewrite updateOptions_config.
  destruct (isArray (_config ctx)) eqn:Ha.
  - destruct (_config ctx); try discriminate.
    change (deepmerge _ _ _) with (clone (Some overwriteMerge) (VObj obj)).
    cbn [clone get_prop]. unfold member.
    rewrite map_lookup_imap, Hk. cbn [mbind option_bind].
    rewrite (safe_key_inherited _ Hsafe). by rewrite (clone_scalar _ v Hv).
  - destruct (deepmerge_lookup (Some overwriteMerge) (_config ctx) obj Ha)
      as (m & -> & Hm).
    cbn [get_prop]. unfold member.
    rewrite Hm, Hk, (safe_key_unsafe _ _ Hsafe), Hv, (clone_scalar _ v Hv).
    by destruct (target_props (_config ctx) !! k).
Qed.

(** X19: the level of the logger becomes [silly] with [-DD], else [debug]
    with [-D] or [--debug], and stays otherwise; the [debug] option of the
    configuration is set to [true] with [-D] or [--debug] only: [-DD] alone
    raises the level and leaves the configuration as it was. *)
Theorem debug_flags (argv : list string) (level : string) ctx (d : value) :
  logger_level argv level
  = (if bool_decide ("-DD" ∈ argv) then "silly"
     else if bool_decide ("-D" ∈ argv ∨ "--debug" ∈ argv) then "debug"
     else level) ∧
  if bool_decide ("-D" ∈ argv ∨ "--debug" ∈ argv)
  then getOption "debug" d (configure_debug argv ctx) = VBool true
  else configure_debug argv ctx = ctx.
Proof.
  unfold logger_level, configure_debug, useDebug, useVerboseDebug.
  rewrite <- bool_decide_or.
  destruct (bool_decide ("-D" ∈ argv ∨ "--debug" ∈ argv)),
    (bool_decide ("-DD" ∈ argv)); simpl; (split; [done|]); try done.
  all: unfold getOption;
    rewrite (updateOptions_scalar ctx {["debug" := VBool true]} "debug"
               (VBool true)) by done; done.
Qed.

Lemma append_cons (c : Ascii.ascii) (s t : string) :
  String c s +:+ t = String c (s +:+ t).
Proof. reflexivity. Qed.

Lemma append_assoc (s t u : string) : (s +:+ t) +:+ u = s +:+ t +:+ u.
Proof.
  induction s as [|c s IH]; [done|]. by rewrite !append_cons, IH.
Qed.

Lemma trimEnd_keep (s : string) (c : Ascii.ascii) :
  is_whitespace c = false →
  trimEnd (s +:+ String c EmptyString) = s +:+ String c EmptyString.
Proof.
  intros Hc. induction s as [|a s IH].
  - change (trimEnd (String c EmptyString) = String c EmptyString).
    simpl. by rewrite Hc.
  - rewrite append_cons. cbn [trimEnd]. rewrite IH.
    destruct s; by rewrite ?append_cons.
Qed.

Lemma trim_lead (c1 c2 : Ascii.ascii) (s : string) :
  is_whitespace c1 = true → is_whitespace c2 = false →
  trim (String c1 (String c2 s)) = trimEnd (String c2 s).
Proof. intros H1 H2. unfold trim. cbn [trimStart]. by rewrite H1, H2. Qed.

Lemma foldl_collect {A B} (P : A → bool) (f : A → B) (l : list A) :
  ∀ acc,
    foldl (λ names entry, if P entry then names ++ [f entry] else names)
      acc l
    = acc ++ (f <$> filter (λ entry, P entry = true) l).
Proof.
  induction l as [|x l IH]; intros acc; simpl.
  - by rewrite app_nil_r.
  - rewrite IH. destruct (P x) eqn:Hx.
    + rewrite filter_cons_True by done. by rewrite <- app_assoc.
    + rewrite filter_cons_False by congruence. done.
Qed.

(** The bracketed names joined by spaces start and end with a bracket. *)
Lemma concat_brackets {A} (f : A → string) (n : A) (ns : list A) :
  ∃ s, String.concat " " ((λ x, "[" +:+ f x +:+ "]") <$> (n :: ns))
       = "[" +:+ s +:+ "]".
Proof.
  revert n. induction ns as [|n' ns IH]; intros n.
  - by exists (f n).
  - destruct (IH n') as [s Hs].
    exists (f n +:+ "] [" +:+ s).
    change (String.concat " "
              ((λ x, "[" +:+ f x +:+ "]") <$> n :: n' :: ns))
      with (("[" +:+ f n +:+ "]") +:+ " " +:+
            String.concat " " ((λ x, "[" +:+ f x +:+ "]") <$> n' :: ns)).
    rewrite Hs. by rewrite !append_assoc.
Qed.

Lemma trim_brackets {A} (f : A → string) (ns : list A) :
  trim (" " +:+ String.concat " " ((λ x, "[" +:+ f x +:+ "]") <$> ns))
  = String.concat " " ((λ x, "[" +:+ f x +:+ "]") <$> ns).
Proof.
  destruct ns as [|n ns]; [done|].
  destruct (concat_brackets f n ns) as [s ->].
  etrans; [apply (trim_lead _ _ (s +:+ "]")); reflexivity|].
  refine (trimEnd_keep ("[" +:+ s) (Ascii.ascii_of_nat 93) _). reflexivity.
Qed.

Lemma positional_names_filter info :
  positional_names info
  = (λ entry, "[" +:+ entry.1 +:+ "]")
      <$> filter (λ entry, is_positional entry.2 = true)
            (arguments_of info).
Proof.
  unfold positional_names.
  by rewrite (foldl_collect (λ entry, is_positional entry.2)
                (λ entry, "[" +:+ entry.1 +:+ "]")).
Qed.

(** X20: the command registered for an action is its name directly followed
    by the bracketed names of its positional arguments, in their order and
    separated by single spaces: [trim] removes the space that was put
    between the name and the first bracket. *)
Theorem command_spec (actionName : string) info :
  command actionName info
  = actionName +:+
    String.concat " "
      ((λ entry, "[" +:+ entry.1 +:+ "]")
         <$> filter (λ entry, is_positional entry.2 = true)
               (arguments_of info)).
Proof.
  unfold command, positionalExpr. rewrite positional_names_filter.
  by rewrite (trim_brackets fst).
Qed.

Lemma builder_map info : builder info = declare <$> arguments_of info.
Proof.
  unfold builder.
  assert (∀ l acc,
    foldl (λ calls entry, calls ++ [declare entry]) acc l
    = acc ++ (declare <$> l)) as Hfold.
  { induction l as [|x l IH]; intros acc; simpl.
    - by rewrite app_nil_r.
    - by rewrite IH, <- app_assoc. }
  apply (Hfold _ []).
Qed.

(** X21: the builder declares every argument of the action once, in order
    and under its name, with the type [string] where none is given; the
    arguments it declares with [yargs.positional] are exactly those whose
    bracketed names the command holds. *)
Theorem builder_spec info :
  decl_name <$> builder info = (arguments_of info).*1 ∧
  positional_names info
  = (λ decl, "[" +:+ decl_name decl +:+ "]")
      <$> filter (λ decl, decl_positional decl = true) (builder info) ∧
  Forall2 (λ entry decl,
             decl_type decl = default TString (arg_type entry.2) ∧
             decl_demandOption decl = arg_required entry.2 ∧
             decl_alias decl = arg_short entry.2)
    (arguments_of info) (builder info).
Proof.
  rewrite builder_map, positional_names_filter.
  split; [|split].
  - by rewrite <- list_fmap_compose.
  - induction (arguments_of info) as [|entry l IH]; [done|].
    cbn [fmap list_fmap].
    destruct (is_positional entry.2) eqn:Hp.
    + rewrite !filter_cons_True by done. cbn [fmap list_fmap].
      by rewrite IH.
    + rewrite !filter_cons_False by (simpl; congruence). done.
  - induction (arguments_of info) as [|entry l IH]; constructor; done.
Qed.

(** X22: the command handler stores the tokens of the command line after
    the first (the command name), each through [String], at the end of the
    [argv] option of the configuration; the arguments keep the whole parse:
    [getArg("_")] still holds every token, and any other key reads as
    [updateArgs] leaves it. *)
Theorem pass_arguments_spec (String_ : value → string)
    (positionals : list value) (named : gmap string value) ctx
    (k : string) (d : value) :
  let ctx' := pass_arguments String_ positionals named ctx in
  get_path ["argv"] (_config ctx')
  = Some (VArr (array_at ["argv"] (_config ctx) ++
               ((λ v, VStr (String_ v)) <$> drop 1 positionals))) ∧
  getArg "_" d ctx' = VArr positionals ∧
  (k ≠ "_" →
   getArg k d ctx'
   = match named !! k with
     | Some v => if nullish v then d else v
     | None => getArg k d ctx
     end).
Proof.
  intros ctx'. split; [|split].
  - unfold ctx', pass_arguments.
    change (_config (updateArgs ?a ?c)) with (_config c).
    rewrite updateOptions_config.
    apply (deepmerge_path ["argv"]); [by repeat constructor|].
    cbn [get_path]. by rewrite lookup_singleton_eq.
  - unfold ctx', pass_arguments, getArg, updateArgs, assign, member. simpl.
    rewrite lookup_union, lookup_insert_eq.
    by destruct (_args ctx !! "_").
  - intros Hk.
    unfold ctx', pass_arguments, getArg, updateArgs, assign, member. simpl.
    rewrite lookup_union, lookup_insert_ne by done.
    destruct (named !! k) as [v|], (_args ctx !! k); simpl; done.
Qed.

Lemma pass_arguments_spec_witness :
  let to_string (v : value) := match v with VStr s => s | _ => "" end in
  getArg "watch" VUndefined
    (pass_arguments to_string [VStr "build"; VStr "src"]
       {["watch" := VBool false]} (new ∅ ∅))
  = VBool false.
Proof.
  intros to_string.
  refine (proj2 (proj2 (pass_arguments_spec to_string
            [VStr "build"; VStr "src"] {["watch" := VBool false]}
            (new ∅ ∅) "watch" VUndefined)) _).
  done.
Defined.

End CommandLine.

(** ** The earlier class *)

Section Earlier.

Lemma legacy_file_assign_null (name : string) (ctx : Legacy.LegacyContext) :
  nullish (Legacy.file_member ctx name) = true →
  Legacy.file_assign_null name ctx
  = Legacy.mkLegacy (Legacy.legacy_env ctx) (Legacy.legacy_dir ctx)
      (Legacy.legacy_config ctx)
      (<[name := VNull]> (Legacy.legacy_config_files ctx))
      (Legacy.legacy_config_files_proto ctx).
Proof.
  unfold Legacy.file_assign_null, Legacy.file_member. intros Hnull.
  destruct (String.eqb_spec name "__proto__") as [->|]; [|done].
  destruct (Legacy.legacy_config_files ctx !! "__proto__") as [v|] eqn:Hown;
    [done|].
  rewrite bool_decide_eq_true_2 by done. cbn [andb].
  destruct (Legacy.legacy_config_files_proto ctx) as [[| | | | | |l|m]|];
    try done.
  - simpl in *. destruct (indexed l !! "__proto__"); done.
  - simpl in *. destruct (m !! "__proto__"); done.
Qed.

(** X24: the earlier [getConfigFilePath] returns or throws what the current
    one does on the same fields and leaves the same directories,
    configuration and configuration files; the current one differs only in
    recording the name among the used files. *)
Theorem legacy_getConfigFilePath_agrees
    (path_join : string → string → string) (name : string)
    (ctx : Legacy.LegacyContext) :
  let earlier := Legacy.getConfigFilePath path_join name ctx in
  let current := getConfigFilePath path_join name (Legacy.upgrade ctx) in
  earlier.2 = current.2 ∧
  Legacy.upgrade earlier.1 = set_usedFiles [] current.1 ∧
  getUsedConfigFiles current.1 = [name].
Proof.
  intros earlier current. unfold earlier, current.
  rewrite getConfigFilePath_unfold, placeholder_unfold.
  rewrite file_member_mark_used.
  unfold Legacy.getConfigFilePath.
  change (file_member (Legacy.upgrade ctx) name)
    with (Legacy.file_member ctx name).
  destruct (nullish (Legacy.file_member ctx name)) eqn:Hn.
  - rewrite (legacy_file_assign_null name ctx Hn).
    destruct ctx as [e d c f p]. cbn [Legacy.legacy_dir].
    rewrite dir_member_dist. unfold Legacy.upgrade. simpl.
    by destruct (d !! "dist.config").
  - destruct ctx as [e d c f p]. cbn [Legacy.legacy_dir].
    rewrite dir_member_dist. unfold Legacy.upgrade. simpl.
    by destruct (d !! "dist.config").
Qed.

End Earlier.

(** ** Calls on concrete contexts *)

Section CallExamples.

Let definition_of (_ : RuntimeContext) (definition : value) (_ : string)
  : value := definition.

(** The project directory after another alias is set and a path asked. *)
Lemma directory_kept_witness :
  let ctx := new ∅ {["project" := "/work"]} in
  let cs := [CallSetDirectory "dist.config" "/work/.config";
             CallGetConfigFilePath "babel.config.js"] in
  (getDirectory "project"
     (perform_all join_plain value definition_of ctx cs)).2
  = (getDirectory "project" ctx).2.
Proof.
  intros ctx cs.
  apply (directory_kept join_plain value definition_of ctx cs "project").
  repeat constructor.
Defined.

(** An empty string registered as a definition, then asked for twice. *)
Lemma definition_kept_witness :
  let ctx := setConfigFile "a.json" (VStr "") (new ∅ ∅) in
  let cs := [CallGetConfigFilePath "a.json";
             CallGetConfigFileContents "a.json"] in
  get (_config_files (perform_all join_plain value definition_of ctx cs))
    "a.json"
  = get (_config_files ctx) "a.json".
Proof.
  intros ctx cs.
  apply (definition_kept join_plain value definition_of ctx cs "a.json").
  - reflexivity.
  - repeat constructor.
Defined.

(** A path asked for a name that was never registered. *)
Lemma files_only_grow_witness :
  "a.json" ∈ dom (_config_files
                    (perform_all join_plain value definition_of (new ∅ ∅)
                       [CallGetConfigFilePath "a.json"])).
Proof.
  apply (files_only_grow join_plain value definition_of (new ∅ ∅)
           [CallGetConfigFilePath "a.json"] "a.json").
  - reflexivity.
  - repeat constructor.
  - reflexivity.
  - apply list_elem_of_here.
Defined.


(** A registered file in a context with an output directory. *)
Lemma getConfigFileContents_defined_witness :
  let ctx := setConfigFile "a.json" (VStr "{}")
               (new ∅ {["dist.config" := "/work/.config"]}) in
  ∃ ctx',
    getConfigFileContents join_plain value definition_of "a.json" ctx
    = (ctx', Ok (VStr "{}")) ∧
    (getConfigFilePath join_plain "a.json" ctx).2
    = Ok "/work/.config/a.json" ∧
    _config_files ctx' = _config_files ctx ∧
    _usedFiles ctx' = ["a.json"].
Proof.
  intros ctx.
  exact (getConfigFileContents_defined join_plain value definition_of ctx
           "a.json" "/work/.config" eq_refl eq_refl).
Defined.

(** A name that was never registered, in a context without directories. *)
Lemma getConfigFileContents_undefined_witness :
  (getConfigFileContents join_plain value definition_of "a.json"
     (new ∅ ∅)).2
  = Throw (ConfigFileNotDefined "a.json").
Proof.
  exact (f_equal snd
           (proj1 (getConfigFileContents_undefined join_plain value
                     definition_of (new ∅ ∅) "a.json" eq_refl eq_refl))).
Defined.

End CallExamples.
